(** * pyeloqua: the Bulk job builder (src/pyeloqua/bulk.py)

    A shallow embedding of the [Bulk] class: job setup, paginated field
    retrieval, field resolution, linked-field rewriting and the EXISTS
    filter builder, followed by the properties of the specification.

    Python objects that the code mutates or shares (the field dicts that
    [requests]' [json()] builds, the dicts of the static tables) live in a
    store and are handled through references, as in Python; strings,
    numbers and the lists local to one call are values. *)

From Stdlib Require Import ZArith Ascii String.
From stdpp Require Import base option list strings gmap pretty.

Local Open Scope string_scope.
Local Open Scope list_scope.

(** ** Python strings *)

Module Py.

(** The character [chr(34)], written through its code. *)
Definition dquote : string := String (ascii_of_nat 34) EmptyString.

(** [str.replace(old, new)] for a non-empty [old]: occurrences are found
    left to right and do not overlap; [skip] counts the characters of the
    occurrence just replaced that are still to be dropped. *)
Fixpoint replace_go (old new : string) (skip : nat) (s : string) : string :=
  match s with
  | EmptyString => EmptyString
  | String c rest =>
      match skip with
      | S k => replace_go old new k rest
      | O =>
          if String.prefix old s
          then new +:+ replace_go old new (String.length old - 1) rest
          else String c (replace_go old new O rest)
      end
  end.

(** With an empty [old] Python puts [new] before every character and at
    the end. *)
Fixpoint intersperse (new s : string) : string :=
  match s with
  | EmptyString => new
  | String c rest => new +:+ String c (intersperse new rest)
  end.

Definition replace (s old new : string) : string :=
  match old with
  | EmptyString => intersperse new s
  | String _ _ => replace_go old new O s
  end.

(** [str(x)] of an optional value: [None] prints as the word None. *)
Definition str {A} `{Pretty A} (x : option A) : string :=
  match x with
  | None => "None"
  | Some a => pretty a
  end.

Definition str_s (x : option string) : string :=
  match x with
  | None => "None"
  | Some a => a
  end.

(** No character of [s] is a brace: [str.format] copies [s] as it is. *)
Fixpoint brace_free (s : string) : bool :=
  match s with
  | EmptyString => true
  | String c rest =>
      negb (Ascii.eqb c "{") && negb (Ascii.eqb c "}") && brace_free rest
  end.

(** The specification's wording of the name transform: every space
    becomes a star, every other character stays. *)
Fixpoint spaces_to_stars (s : string) : string :=
  match s with
  | EmptyString => EmptyString
  | String c rest =>
      String (if Ascii.eqb c " " then "*"%char else c) (spaces_to_stars rest)
  end.

End Py.

(** ** Exceptions and outcomes *)

Inductive exn : Type :=
  | Exception (msg : string)          (* raise Exception(msg) *)
  | TypeError (msg : string)
  | ValueError
  | KeyError (key : option string)    (* the missing key; None is Python's None *)
  | IndexError
  | UnboundLocalError (var : string)
  | ElqError (status_code : Z).       (* the vendor's answer is not a success *)

Inductive outcome (A : Type) : Type :=
  | Ret (a : A)
  | Raise (e : exn)
  | Timeout          (* the model's fuel ran out: the Python loop is still running *)
  | Dangling.        (* a reference outside the store: no Python run does this *)
Arguments Ret {A} a.
Arguments Raise {A} e.
Arguments Timeout {A}.
Arguments Dangling {A}.

Module Fmt.

(** The operator [fmt % arg] with one string argument, for the conversion
    [%s] and the escape [%%] (the only ones in the source). [arg] is
    [Some a] while the argument has not been consumed. *)
Fixpoint percent_go (fmt : string) (arg : option string) : exn + string :=
  match fmt with
  | EmptyString =>
      match arg with
      | Some _ => inl (TypeError "not all arguments converted during string formatting")
      | None => inr EmptyString
      end
  | String "%"%char (String "s"%char rest) =>
      match arg with
      | Some a =>
          match percent_go rest None with
          | inr r => inr (a +:+ r)
          | inl e => inl e
          end
      | None => inl (TypeError "not enough arguments for format string")
      end
  | String "%"%char (String "%"%char rest) =>
      match percent_go rest arg with
      | inr r => inr (String "%"%char r)
      | inl e => inl e
      end
  | String "%"%char _ => inl (ValueError)
  | String c rest =>
      match percent_go rest arg with
      | inr r => inr (String c r)
      | inl e => inl e
      end
  end.

Definition percent (fmt arg : string) : exn + string := percent_go fmt (Some arg).

Fixpoint kwarg (kw : list (string * string)) (k : string) : option string :=
  match kw with
  | [] => None
  | (k', v) :: kw' => if String.eqb k k' then Some v else kwarg kw' k
  end.

(** The name of a positional field is a number; the empty name is the
    next position. *)
Fixpoint all_digits (s : string) : bool :=
  match s with
  | EmptyString => true
  | String c rest => Ascii.leb "0" c && Ascii.leb c "9" && all_digits rest
  end.

(** [tmpl.format] with the arguments [kw], for plain replacement fields
    [{name}] and the escapes [{{] and [}}]; a positional argument is passed
    under its position ([("0", v)] is the first). [field] is [Some acc]
    while the characters of a field name are being read ([acc] holds them
    in reverse). A field whose argument was not passed raises [IndexError]
    when it is positional and [KeyError] when it is named.

    Attribute and index access, conversions, format specifications and
    braces inside a field (the characters [.], [[], [!], [:] and [{]) are
    not modelled. The templates written in the source have none; such a
    field can reach [format] only through braces in [bulk_base] or in the
    name of the object kind, and the statements about what a call returns
    or raises assume that these have no brace. *)
Fixpoint format_go (tmpl : string) (field : option string)
    (kw : list (string * string)) : exn + string :=
  match tmpl with
  | EmptyString =>
      match field with
      | Some _ => inl (ValueError)
      | None => inr EmptyString
      end
  | String c rest =>
      match field with
      | Some acc =>
          if Ascii.eqb c "}" then
            match kwarg kw (String.rev acc) with
            | Some v =>
                match format_go rest None kw with
                | inr r => inr (v +:+ r)
                | inl e => inl e
                end
            | None =>
                if all_digits (String.rev acc) then inl IndexError
                else inl (KeyError (Some (String.rev acc)))
            end
          else format_go rest (Some (String c acc)) kw
      | None =>
          if Ascii.eqb c "{" then
            match rest with
            | String c' rest' =>
                if Ascii.eqb c' "{" then
                  match format_go rest' None kw with
                  | inr r => inr (String c r)
                  | inl e => inl e
                  end
                else format_go rest (Some EmptyString) kw
            | EmptyString => format_go rest (Some EmptyString) kw
            end
          else if Ascii.eqb c "}" then
            match rest with
            | String c' rest' =>
                if Ascii.eqb c' "}" then
                  match format_go rest' None kw with
                  | inr r => inr (String c r)
                  | inl e => inl e
                  end
                else inl (ValueError)
            | EmptyString =>
                inl (ValueError)
            end
          else
            match format_go rest None kw with
            | inr r => inr (String c r)
            | inl e => inl e
            end
      end
  end.

Definition format (tmpl : string) (kw : list (string * string)) : exn + string :=
  format_go tmpl None kw.

End Fmt.

(** ** JSON objects and the store *)

(** A JSON object as the code reads it: the keys it looks up are fields
    ([None]: the key is absent and the lookup raises [KeyError]); the rest
    of the vendor's metadata is carried along unread. *)
#[warnings="-register-all"]
Inductive dict : Type := mkDict {
  d_internalName : option string;
  d_name : option string;
  d_statement : option string;
  d_hasMore : option bool;
  d_items : option (list dict);
  d_fields : option (list dict);
  d_other : list (string * string)
}.

(** [d['statement'] = v] *)
Definition set_statement (d : dict) (v : string) : dict :=
  mkDict (d_internalName d) (d_name d) (Some v) (d_hasMore d) (d_items d)
         (d_fields d) (d_other d).

(** References to the dicts of the store. *)
Definition loc : Type := nat.

(** What [requests.get] returns: [ok] and [status_code] as in [requests],
    [json] the parsed body. *)
Record Response : Type := mkResponse {
  ok : bool;
  status_code : Z;
  json : dict
}.

(** The job dict [self.job]; [job_fields] holds references. *)
Record Job : Type := mkJob {
  job_filters : list string;
  job_fields : list loc;
  job_type : option string;
  job_elq_object : option string;
  job_obj_id : option Z;
  job_act_type : option string;
  job_options : list (string * string)
}.

Definition job_extend_fields (j : Job) (l : list loc) : Job :=
  mkJob (job_filters j) (job_fields j ++ l) (job_type j) (job_elq_object j)
        (job_obj_id j) (job_act_type j) (job_options j).

Definition job_append_filter (j : Job) (f : string) : Job :=
  mkJob (job_filters j ++ [f]) (job_fields j) (job_type j) (job_elq_object j)
        (job_obj_id j) (job_act_type j) (job_options j).

Definition BLANK_JOB : Job := mkJob [] [] None None None None [].

Definition OBJECT_REQ_ID : list string := ["customobjects"; "events"].

Definition OBJECT_REQ_TYPE : list string := ["activities"].

Definition ELQ_OBJECTS : list string :=
  ["accounts"; "activities"; "contacts"; "customobjects"; "emailaddresses"; "events"].

(** [x in l] and [x == y] for a value that may be [None]. *)
Definition py_in (x : option string) (l : list string) : bool :=
  match x with
  | Some a => bool_decide (a ∈ l)
  | None => false
  end.

Definition py_eq (x : option string) (y : string) : bool :=
  match x with
  | Some a => String.eqb a y
  | None => false
  end.

(** ** The specification's error taxonomy

    The source raises [Exception(msg)] for every error of its own and
    tells them apart by the message only; the errors the interpreter
    raises ([TypeError], [KeyError], [IndexError], [UnboundLocalError])
    are none of the specification's kinds. *)
Inductive ErrorKind : Type :=
  | ConfigurationError
  | FieldNotFoundError
  | NotFoundError
  | RemoteError.

Definition error_kind (e : exn) : option ErrorKind :=
  match e with
  | Exception msg =>
      if String.prefix "field not found: " msg then Some FieldNotFoundError
      else Some ConfigurationError
  | ElqError _ => Some RemoteError
  | _ => None
  end.

Section Bulk.

(** The vendor's side: [requests_get url w] is the response to a GET of
    [url] in the state [w] of the remote service, and its next state. The
    credentials [self.auth] are the same in every request and are left
    out. *)
Context {World : Type}.
Variable requests_get : string → World → Response * World.

(** Modelled from the spec: [_elq_error_] of error_handling.py is not
    among the sources. It looks at a response and, when the response is
    not a success, raises the remote error made from it; [response_error
    req] is that exception, [None] on a success. *)
Variable response_error : Response → option exn.

(** [self.bulk_base], and the tables of [system_fields.py] (their dicts
    are in the store from the start). *)
Variable bulk_base : string.
Variable ACTIVITY_FIELDS : gmap string (list loc).
Variable CONTACT_SYSTEM_FIELDS : list loc.
Variable ACCOUNT_SYSTEM_FIELDS : list loc.

(** The [Bulk] object and what it can reach: the job, the store of dicts,
    the remote service, and the URLs requested so far. *)
Record Bulk : Type := mkBulk {
  job : Job;
  heap : list dict;
  world : World;
  sent : list string
}.

Definition set_job (j : Job) (s : Bulk) : Bulk :=
  mkBulk j (heap s) (world s) (sent s).

Definition M (A : Type) : Type := Bulk → outcome A * Bulk.

Definition ret {A} (a : A) : M A := λ s, (Ret a, s).

Definition raise {A} (e : exn) : M A := λ s, (Raise e, s).

Definition bind {A B} (m : M A) (k : A → M B) : M B := λ s,
  match m s with
  | (Ret a, s') => k a s'
  | (Raise e, s') => (Raise e, s')
  | (Timeout, s') => (Timeout, s')
  | (Dangling, s') => (Dangling, s')
  end.

Notation "x <- m ;; k" := (bind m (λ x, k))
  (at level 100, m at next level, right associativity).
Notation "m ;;; k" := (bind m (λ _, k))
  (at level 100, right associativity).

Definition lift {A} (r : exn + A) : M A :=
  match r with
  | inr a => ret a
  | inl e => raise e
  end.

(** [d[key]] on a key the dict may lack. *)
Definition getitem {A} (key : string) (v : option A) : M A :=
  match v with
  | Some a => ret a
  | None => raise (KeyError (Some key))
  end.

(** Reading a local variable that may not have been assigned. *)
Definition local {A} (var : string) (v : option A) : M A :=
  match v with
  | Some a => ret a
  | None => raise (UnboundLocalError var)
  end.

Definition get_job : M Job := λ s, (Ret (job s), s).

Definition deref (l : loc) : M dict := λ s,
  match heap s !! l with
  | Some d => (Ret d, s)
  | None => (Dangling, s)
  end.

Definition store (l : loc) (d : dict) : M unit := λ s,
  (Ret tt, mkBulk (job s) (<[l := d]> (heap s)) (world s) (sent s)).

(** The dicts of a parsed body are new objects: they are put at the end
    of the store, in order. *)
Definition alloc (ds : list dict) : M (list loc) := λ s,
  (Ret (seq (length (heap s)) (length ds)),
   mkBulk (job s) (heap s ++ ds) (world s) (sent s)).

(** [requests.get(url=url, auth=self.auth)] *)
Definition get (url : string) : M Response := λ s,
  let (r, w) := requests_get url (world s) in
  (Ret r, mkBulk (job s) (heap s) w (sent s ++ [url])).

(** [_elq_error_(req)] *)
Definition _elq_error_ (req : Response) : M unit :=
  match response_error req with
  | Some e => raise e
  | None => ret tt
  end.

(** [self.job['fields'].extend(l)] and [self.job['filters'].append(f)] *)
Definition extend_fields (l : list loc) : M unit := λ s,
  (Ret tt, set_job (job_extend_fields (job s) l) s).

Definition append_filter (f : string) : M unit := λ s,
  (Ret tt, set_job (job_append_filter (job s) f) s).

(** A [for] loop whose body may raise: [acc] is what the body updates. *)
Fixpoint for_each {A S} (xs : list A) (body : A → S → M S) (acc : S) : M S :=
  match xs with
  | [] => ret acc
  | x :: xs' => acc' <- body x acc ;; for_each xs' body acc'
  end.

(** *** reset, _setup_ *)

Definition reset : M unit := λ s, (Ret tt, set_job BLANK_JOB s).

Definition _setup_ (job_type_ : string) (elq_object : string)
    (obj_id : option Z) (act_type : option string) : M unit :=
  if negb (py_in (Some elq_object) ELQ_OBJECTS) then
    msg <- lift (Fmt.percent "invalid elq_object '$s'" elq_object) ;;
    raise (Exception msg)
  else if py_in (Some elq_object) OBJECT_REQ_ID && bool_decide (obj_id = None) then
    msg <- lift (Fmt.percent "obj_id required for '%s'" elq_object) ;;
    raise (Exception msg)
  else if py_in (Some elq_object) OBJECT_REQ_TYPE && bool_decide (act_type = None) then
    msg <- lift (Fmt.percent "act_type required for '%s'" elq_object) ;;
    raise (Exception msg)
  else λ s,
    let j := job s in
    (Ret tt, set_job (mkJob (job_filters j) (job_fields j) (Some job_type_)
                            (Some elq_object) obj_id act_type (job_options j)) s).

Definition imports (elq_object : string) (obj_id : option Z)
    (act_type : option string) : M unit :=
  _setup_ "imports" elq_object obj_id act_type.

Definition exports (elq_object : string) (obj_id : option Z)
    (act_type : option string) : M unit :=
  _setup_ "exports" elq_object obj_id act_type.

(** *** get_fields *)

(** The [while has_more] loop; one unit of [fuel] per page. *)
Fixpoint get_fields_loop (fuel : nat) (url_base : string) (offset : nat)
    (fields : list loc) : M (list loc) :=
  match fuel with
  | O => λ s, (Timeout, s)
  | S fuel' =>
      url <- lift (Fmt.format url_base [("offset", pretty offset)]) ;;
      req <- get url ;;
      _elq_error_ req ;;;
      items <- getitem "items" (d_items (json req)) ;;
      new <- alloc items ;;
      has_more <- getitem "hasMore" (d_hasMore (json req)) ;;
      if has_more : bool
      then get_fields_loop fuel' url_base (S offset) (fields ++ new)
      else ret (fields ++ new)
  end.

(** [if elq_object is None:] the three arguments are taken from the job. *)
Definition target (j : Job) (elq_object : option string) (obj_id : option Z)
    (act_type : option string) : option string * option Z * option string :=
  match elq_object with
  | None => (job_elq_object j, job_obj_id j, job_act_type j)
  | Some _ => (elq_object, obj_id, act_type)
  end.

Definition get_fields (fuel : nat) (elq_object : option string)
    (obj_id : option Z) (act_type : option string) : M (list loc) :=
  j <- get_job ;;
  let '(elq_object, obj_id, act_type) := target j elq_object obj_id act_type in
  if py_eq elq_object "activities" then
    match act_type with
    | Some t =>
        match ACTIVITY_FIELDS !! t with
        | Some fs => ret fs
        | None => raise (KeyError (Some t))
        end
    | None => raise (KeyError None)
    end
  else
    path <- (if py_in elq_object OBJECT_REQ_ID
             then lift (Fmt.format "/{obj}/{id}/fields?limit=1000"
                          [("obj", Py.str_s elq_object); ("id", Py.str obj_id)])
             else lift (Fmt.format "/{obj}/fields?limit=1000"
                          [("obj", Py.str_s elq_object)])) ;;
    let url_base := bulk_base +:+ path +:+ "&offset={offset}" in
    get_fields_loop fuel url_base 0 [].

(** *** Name resolution *)

(** [field_name == field['internalName'] or field_name == field['name']]:
    the second lookup is made only when the first comparison fails. *)
Definition matches_either (field_name : string) (d : dict) : M bool :=
  i <- getitem "internalName" (d_internalName d) ;;
  if String.eqb field_name i then ret true
  else n <- getitem "name" (d_name d) ;; ret (String.eqb field_name n).

(** [field_name == field['name']] *)
Definition matches_name (field_name : string) (d : dict) : M bool :=
  n <- getitem "name" (d_name d) ;; ret (String.eqb field_name n).

(** The loop that [add_fields], [add_system_fields] and
    [add_linked_fields] each spell out:
<<
        for field_name in field_input:
            match = False
            for field in fields:
                if test: fields_output.append(field); match = True
            if not match:
                raise Exception('field not found: %s' % field_name)
>>
    [test] is the comparison of the function at hand, and [fields] reads
    the variable the inner loop iterates over. [resolve_name] is the body
    of the outer loop. *)
Definition resolve_name (test : string → dict → M bool) (fields : M (list loc))
    (field_name : string) (fields_output : list loc) : M (list loc) :=
  fs <- fields ;;
  r <- for_each fs
         (λ field (acc : list loc * bool),
            d <- deref field ;;
            b <- test field_name d ;;
            if b : bool then ret (acc.1 ++ [field], true) else ret acc)
         (fields_output, false) ;;
  if negb r.2 then
    msg <- lift (Fmt.percent "field not found: %s" field_name) ;;
    raise (Exception msg)
  else ret r.1.

Definition resolve (test : string → dict → M bool) (fields : M (list loc))
    (field_input : list string) : M (list loc) :=
  for_each field_input (resolve_name test fields) [].

(** *** add_fields *)

Definition add_fields (fuel : nat) (field_input : option (list string))
    : M (option bool) :=
  fields <- get_fields fuel None None None ;;
  match field_input with
  | None => extend_fields fields ;;; ret (Some true)
  | Some field_input =>
      fields_output <-
        resolve (λ field_name d,
                   j <- get_job ;;
                   if negb (py_eq (job_elq_object j) "activities")
                   then matches_either field_name d
                   else matches_name field_name d)
                (ret fields) field_input ;;
      extend_fields fields_output ;;; ret None
  end.

(** *** add_system_fields *)

Definition add_system_fields (field_input : option (list string))
    : M (option bool) :=
  j <- get_job ;;
  (* [fieldset] is assigned in two branches only *)
  let fieldset :=
    if py_eq (job_elq_object j) "contacts" then Some CONTACT_SYSTEM_FIELDS
    else if py_eq (job_elq_object j) "accounts" then Some ACCOUNT_SYSTEM_FIELDS
    else None in
  match field_input with
  | None =>
      fs <- local "fieldset" fieldset ;;
      extend_fields fs ;;; ret (Some true)
  | Some field_input =>
      fields_output <-
        resolve matches_name (local "fieldset" fieldset) field_input ;;
      extend_fields fields_output ;;; ret None
  end.

(** *** add_linked_fields *)

(** The body of [for field in fields_output]: the statement of the dict
    that [field] refers to is replaced in that dict. *)
Definition rewrite_statement (lnk_obj : string) (field : loc) : M unit :=
  if String.eqb lnk_obj "contacts" then
    j <- get_job ;;
    if py_eq (job_elq_object j) "customobjects" then
      d <- deref field ;;
      st <- getitem "statement" (d_statement d) ;;
      new <- lift (Fmt.percent "CustomObject[%s].Contact." (Py.str (job_obj_id j))) ;;
      store field (set_statement d (Py.replace st "Contact." new))
    else if py_eq (job_elq_object j) "events" then
      d <- deref field ;;
      st <- getitem "statement" (d_statement d) ;;
      new <- lift (Fmt.percent "Event[%s].Contact." (Py.str (job_obj_id j))) ;;
      store field (set_statement d (Py.replace st "Contact." new))
    else ret tt
  else if String.eqb lnk_obj "accounts" then
    d <- deref field ;;
    st <- getitem "statement" (d_statement d) ;;
    store field (set_statement d (Py.replace st "Account." "Contact.Account."))
  else ret tt.

Definition add_linked_fields (fuel : nat) (lnk_obj : string)
    (field_input : list string) : M unit :=
  fields <- get_fields fuel (Some lnk_obj) None None ;;
  fields_output <- resolve matches_either (ret fields) field_input ;;
  for_each fields_output (λ field _, rewrite_statement lnk_obj field) tt ;;;
  extend_fields fields_output.

(** *** add_leadscore_fields, filter_exists_list *)

(** [l[0]] *)
Definition first {A} (l : list A) : M A :=
  match l with
  | x :: _ => ret x
  | [] => raise IndexError
  end.

Definition add_leadscore_fields (model_id : option Z) (name : option string)
    : M unit :=
  match model_id, name with
  | Some model_id, _ =>
      path <- lift (Fmt.format "/contacts/scoring/models/{0}"
                      [("0", pretty model_id)]) ;;
      req <- get (bulk_base +:+ path) ;;
      _elq_error_ req ;;;
      fs <- getitem "fields" (d_fields (json req)) ;;
      new <- alloc fs ;;
      extend_fields new
  | None, Some name =>
      path <- lift (Fmt.format
                      ("/contacts/scoring/models?q=" +:+ Py.dquote +:+
                       "name={name}" +:+ Py.dquote)
                      [("name", Py.replace name " " "*")]) ;;
      req <- get (bulk_base +:+ path) ;;
      _elq_error_ req ;;;
      items <- getitem "items" (d_items (json req)) ;;
      model <- first items ;;
      fs <- getitem "fields" (d_fields model) ;;
      new <- alloc fs ;;
      extend_fields new
  | None, None => raise (Exception "model_id or name required")
  end.

Definition exists_temp : string := " EXISTS('{statement}') ".

Definition filter_exists_list (list_id : option Z) (name : option string)
    : M unit :=
  match list_id, name with
  | Some list_id, _ =>
      j <- get_job ;;
      path <- lift (Fmt.format "/{obj}/lists/{list_id}"
                      [("obj", Py.str_s (job_elq_object j));
                       ("list_id", pretty list_id)]) ;;
      req <- get (bulk_base +:+ path) ;;
      _elq_error_ req ;;;
      st <- getitem "statement" (d_statement (json req)) ;;
      f <- lift (Fmt.format exists_temp [("statement", st)]) ;;
      append_filter f
  | None, Some name =>
      j <- get_job ;;
      path <- lift (Fmt.format
                      ("/{obj}/lists?q=" +:+ Py.dquote +:+ "name={name}" +:+
                       Py.dquote)
                      [("obj", Py.str_s (job_elq_object j));
                       ("name", Py.replace name " " "*")]) ;;
      req <- get (bulk_base +:+ path) ;;
      _elq_error_ req ;;;
      items <- getitem "items" (d_items (json req)) ;;
      lst <- first items ;;
      st <- getitem "statement" (d_statement lst) ;;
      f <- lift (Fmt.format exists_temp [("statement", st)]) ;;
      append_filter f
  | None, None => raise (Exception "list_id or name required")
  end.

(** ** Notions used by the statements *)

(** The URL of the page of field metadata at [offset]. *)
Definition fields_url (elq_object : option string) (obj_id : option Z)
    (offset : nat) : string :=
  bulk_base +:+ "/" +:+ Py.str_s elq_object +:+
  (if py_in elq_object OBJECT_REQ_ID then "/" +:+ Py.str obj_id else EmptyString) +:+
  "/fields?limit=1000&offset=" +:+ pretty offset.

(** [served url_of offset w pages w']: asked for the pages at [offset],
    [offset + 1], ... in turn, the service in state [w] answers each with
    a success, the item lists are [pages], exactly the last answer has
    [hasMore] false, and the service ends in state [w']. *)
Inductive served (url_of : nat → string) : nat → World → list (list dict) → World → Prop :=
  | served_last offset w r w' items :
      requests_get (url_of offset) w = (r, w') →
      response_error r = None →
      d_items (json r) = Some items →
      d_hasMore (json r) = Some false →
      served url_of offset w [items] w'
  | served_more offset w r w' items pages w'' :
      requests_get (url_of offset) w = (r, w') →
      response_error r = None →
      d_items (json r) = Some items →
      d_hasMore (json r) = Some true →
      served url_of (S offset) w' pages w'' →
      served url_of offset w (items :: pages) w''.

(** A comparison that reads the store and the job only: on the dicts of
    [fs] it returns the truth value of [P] and changes nothing. *)
Definition decides (test : dict → M bool) (P : loc → Prop)
    `{∀ l, Decision (P l)} (fs : list loc) (s : Bulk) : Prop :=
  ∀ l, l ∈ fs → ∃ d, heap s !! l = Some d ∧ test d s = (Ret (bool_decide (P l)), s).

(** The URLs of the lookups of a shared list, by ID and by name, and of a
    lead score model by name; the name goes through the specification's
    transform. *)
Definition list_url (j : Job) (list_id : Z) : string :=
  bulk_base +:+ "/" +:+ Py.str_s (job_elq_object j) +:+ "/lists/" +:+
  pretty list_id.

Definition list_search_url (j : Job) (name : string) : string :=
  bulk_base +:+ "/" +:+ Py.str_s (job_elq_object j) +:+ "/lists?q=" +:+
  Py.dquote +:+ "name=" +:+ Py.spaces_to_stars name +:+ Py.dquote.

Definition model_search_url (name : string) : string :=
  bulk_base +:+ "/contacts/scoring/models?q=" +:+ Py.dquote +:+ "name=" +:+
  Py.spaces_to_stars name +:+ Py.dquote.

(** [resolved_list s list_id name url w' lst]: in the state [s] the lookup
    with these arguments is the request of [url], the service answers it
    with a success and goes to [w'], and [lst] is the record the answer
    resolves to: the body itself by ID, the first item by name. *)
Inductive resolved_list (s : Bulk) : option Z → option string → string → World → dict → Prop :=
  | resolved_by_id list_id name r w' :
      requests_get (list_url (job s) list_id) (world s) = (r, w') →
      response_error r = None →
      resolved_list s (Some list_id) name (list_url (job s) list_id) w' (json r)
  | resolved_by_name name r w' lst rest :
      requests_get (list_search_url (job s) name) (world s) = (r, w') →
      response_error r = None →
      d_items (json r) = Some (lst :: rest) →
      resolved_list s None (Some name) (list_search_url (job s) name) w' lst.

(** [refused url_of offset w n e w']: the service answers the [n] pages
    from [offset] on with successes that say [hasMore], and the next page
    with a response for which [_elq_error_] raises [e]. *)
Inductive refused (url_of : nat → string) : nat → World → nat → exn → World → Prop :=
  | refused_now offset w r w' e :
      requests_get (url_of offset) w = (r, w') →
      response_error r = Some e →
      refused url_of offset w 0 e w'
  | refused_later offset w r w' items n e w'' :
      requests_get (url_of offset) w = (r, w') →
      response_error r = None →
      d_items (json r) = Some items →
      d_hasMore (json r) = Some true →
      refused url_of (S offset) w' n e w'' →
      refused url_of offset w (S n) e w''.

(** The URL of a lead score model, by ID. *)
Definition model_url (model_id : Z) : string :=
  bulk_base +:+ "/contacts/scoring/models/" +:+ pretty model_id.

(** [resolved_model s model_id name url w' model]: as [resolved_list], for
    the lookup of a lead score model. *)
Inductive resolved_model (s : Bulk) : option Z → option string → string → World → dict → Prop :=
  | model_by_id model_id name r w' :
      requests_get (model_url model_id) (world s) = (r, w') →
      response_error r = None →
      resolved_model s (Some model_id) name (model_url model_id) w' (json r)
  | model_by_name name r w' model rest :
      requests_get (model_search_url name) (world s) = (r, w') →
      response_error r = None →
      d_items (json r) = Some (model :: rest) →
      resolved_model s None (Some name) (model_search_url name) w' model.

End Bulk.

Arguments Bulk : clear implicits.
Arguments mkBulk {World} job heap world sent.

(** A caller's name matches a field by exact equality of strings with its
    internal name or its display name; for an activities job
    ([activities = true]) with its display name only. *)
Definition name_match (activities : bool) (field_name : string) (d : dict) : Prop :=
  (activities = false ∧ d_internalName d = Some field_name) ∨
  d_name d = Some field_name.

Definition loc_match (h : list dict) (activities : bool) (field_name : string)
    (l : loc) : Prop :=
  match h !! l with
  | Some d => name_match activities field_name d
  | None => False
  end.

#[global] Instance name_match_dec a n d : Decision (name_match a n d).
Proof. unfold name_match. apply _. Defined.

#[global] Instance loc_match_dec h a n l : Decision (loc_match h a n l).
Proof. unfold loc_match. destruct (h !! l); apply _. Defined.

(** The keys the comparison reads are present. *)
Definition has_keys (activities : bool) (d : dict) : Prop :=
  is_Some (d_name d) ∧ (activities = false → is_Some (d_internalName d)).

(** The rewrite rule of a (linked kind, current kind) pair, as a function
    on statements. *)
Definition rewrite_rule (lnk_obj : string) (j : Job) (st : string) : string :=
  if String.eqb lnk_obj "contacts" then
    if py_eq (job_elq_object j) "customobjects" then
      Py.replace st "Contact." ("CustomObject[" +:+ Py.str (job_obj_id j) +:+ "].Contact.")
    else if py_eq (job_elq_object j) "events" then
      Py.replace st "Contact." ("Event[" +:+ Py.str (job_obj_id j) +:+ "].Contact.")
    else st
  else if String.eqb lnk_obj "accounts" then
    Py.replace st "Account." "Contact.Account."
  else st.

(** ** A scripted service for the examples *)

Module Example.

Definition empty_dict : dict := mkDict None None None None None None [].

Definition not_found : Response := mkResponse false 404 empty_dict.

(** The service answers by URL, from a table; it has no state. *)
Fixpoint route (routes : list (string * Response)) (url : string) : Response :=
  match routes with
  | [] => not_found
  | (u, r) :: rs => if String.eqb url u then r else route rs url
  end.

Definition server (routes : list (string * Response)) (url : string) (w : unit)
    : Response * unit :=
  (route routes url, w).

(** A response is an error when it is not [ok]. *)
Definition check (r : Response) : option exn :=
  if ok r then None else Some (ElqError (status_code r)).

Definition field (internal name statement : string) : dict :=
  mkDict (Some internal) (Some name) (Some statement) None None None [].

Definition page (items : list dict) (has_more : bool) : Response :=
  mkResponse true 200 (mkDict None None None (Some has_more) (Some items) None []).

Definition base : string := "https://secure.p01.eloqua.com/API/Bulk/2.0".

Definition email : dict :=
  field "C_EmailAddress" "Email Address" "Contact.Field[Email Address]".

Definition first_name : dict :=
  field "C_FirstName" "First Name" "Contact.Field[First Name]".

Definition last_name : dict :=
  field "C_LastName" "Last Name" "Contact.Field[Last Name]".

(** Contact fields in one page. *)
Definition contact_fields : list (string * Response) :=
  [(base +:+ "/contacts/fields?limit=1000&offset=0", page [email; first_name] false)].

(** Contact fields in three pages, at offsets 0, 1 and 2. *)
Definition contact_pages : list (string * Response) :=
  [(base +:+ "/contacts/fields?limit=1000&offset=0", page [email] true);
   (base +:+ "/contacts/fields?limit=1000&offset=1", page [first_name] true);
   (base +:+ "/contacts/fields?limit=1000&offset=2", page [last_name] false)].

(** The shared list of test_bulk_filters.py, by ID and by name. *)
Definition GOOD_LIST : dict :=
  mkDict None (Some "Test List 1") (Some "{{ContactList[1]}}") None None None
         [("uri", "/contacts/lists/1"); ("createdBy", "testuser")].

Definition lists : list (string * Response) :=
  [(base +:+ "/contacts/lists/1", mkResponse true 200 GOOD_LIST);
   (base +:+ "/contacts/lists?q=" +:+ Py.dquote +:+ "name=Test*List*1" +:+ Py.dquote,
    page [GOOD_LIST] false);
   (base +:+ "/contacts/lists?q=" +:+ Py.dquote +:+ "name=No*Such*List" +:+ Py.dquote,
    page [] false);
   (base +:+ "/contacts/scoring/models?q=" +:+ Py.dquote +:+ "name=No*Such*Model" +:+ Py.dquote,
    page [] false)].

(** Two fields that the one name Status matches: the first by its
    internal name, the last by its display name. *)
Definition status_fields : list (string * Response) :=
  [(base +:+ "/contacts/fields?limit=1000&offset=0",
    page [field "Status" "Lead Status" "{{Contact.Field(Status)}}";
          email;
          field "C_Status1" "Status" "{{Contact.Field(C_Status1)}}"] false)].

(** A static table of activity fields; its dicts are the first two of the
    store. *)
Definition activity (name statement : string) : dict :=
  mkDict None (Some name) (Some statement) None None None [].

Definition activity_dicts : list dict :=
  [activity "ActivityId" "{{Activity.Id}}";
   activity "ActivityType" "{{Activity.Type}}"].

Definition activity_table : gmap string (list loc) := {[ "EmailOpen" := [0; 1] ]}.

Definition start (j : Job) : Bulk unit := mkBulk j [] tt [].

Definition activities_job : Job :=
  mkJob [] [] (Some "exports") (Some "activities") None (Some "EmailOpen") [].

Definition contacts_job : Job :=
  mkJob [] [] (Some "exports") (Some "contacts") None None [].

Definition customobjects_job : Job :=
  mkJob [] [] (Some "exports") (Some "customobjects") (Some 5%Z) None [].

Definition events_job : Job :=
  mkJob [] [] (Some "exports") (Some "events") (Some 7%Z) None [].

End Example.

(** ** Notions used by the further properties *)

(** What [_setup_] records is the same in both jobs. *)
Definition same_setup (j j' : Job) : Prop :=
  job_type j' = job_type j ∧ job_elq_object j' = job_elq_object j ∧
  job_obj_id j' = job_obj_id j ∧ job_act_type j' = job_act_type j ∧
  job_options j' = job_options j.

(** Every dict of the store [h] is in [h'], at the same place and as it
    was. *)
Definition store_kept (h h' : list dict) : Prop :=
  ∀ l d, h !! l = Some d → h' !! l = Some d.

(** The token [old] begins at no position of [s]. *)
Fixpoint absent (old s : string) : bool :=
  match s with
  | EmptyString => true
  | String _ rest => negb (String.prefix old s) && absent old rest
  end.

(** The job is one that [_setup_] accepts. *)
Definition valid_setup (elq_object : string) (obj_id : option Z)
    (act_type : option string) : Prop :=
  elq_object ∈ ELQ_OBJECTS ∧
  (elq_object ∈ OBJECT_REQ_ID → is_Some obj_id) ∧
  (elq_object ∈ OBJECT_REQ_TYPE → is_Some act_type).

Module Cases.

Import Example.

(** A service that answers every request with one more page. *)
Definition endless (url : string) (w : unit) : Response * unit :=
  (page [email] true, w).

(** Contact fields whose second page is refused. *)
Definition refused_pages : list (string * Response) :=
  [(base +:+ "/contacts/fields?limit=1000&offset=0", page [email] true);
   (base +:+ "/contacts/fields?limit=1000&offset=1",
    mkResponse false 503 empty_dict)].

(** A first page without [items], and one without [hasMore]. *)
Definition no_items : list (string * Response) :=
  [(base +:+ "/contacts/fields?limit=1000&offset=0",
    mkResponse true 200 (mkDict None None None (Some false) None None []))].

Definition no_hasMore : list (string * Response) :=
  [(base +:+ "/contacts/fields?limit=1000&offset=0",
    mkResponse true 200 (mkDict None None None None (Some [email]) None []))].

(** System fields of contacts, the first two dicts of the store. *)
Definition system_dicts : list dict :=
  [activity "contactID" "{{Contact.Id}}";
   activity "createdAt" "{{Contact.CreatedAt}}"].

(** A lead score model with two fields, by ID and by name. *)
Definition rating : dict :=
  mkDict None (Some "Rating") (Some "{{Contact.LeadScore.Model[1].Rating}}")
         None None None [].

Definition profile : dict :=
  mkDict None (Some "Profile") (Some "{{Contact.LeadScore.Model[1].ProfileScore}}")
         None None None [].

Definition model : dict :=
  mkDict None (Some "Lead Score") None None None (Some [rating; profile]) [].

Definition models : list (string * Response) :=
  [(base +:+ "/contacts/scoring/models/1", mkResponse true 200 model);
   (base +:+ "/contacts/scoring/models?q=" +:+ Py.dquote +:+ "name=Lead*Score" +:+
    Py.dquote, page [model; empty_dict] false)].

(** Account fields for a contacts job to link. *)
Definition company : dict :=
  field "M_CompanyName" "Company Name" "{{Account.Field(M_CompanyName)}}".

Definition account_fields : list (string * Response) :=
  [(base +:+ "/accounts/fields?limit=1000&offset=0", page [company] false)].

End Cases.

(** * Properties

    ** String operations *)

Lemma prefix_empty (s : string) : String.prefix EmptyString s = true.
Proof. by destruct s. Qed.

Lemma append_String (c : ascii) (p q : string) :
  String c p +:+ q = String c (p +:+ q).
Proof. reflexivity. Qed.

Lemma append_empty_r (s : string) : s +:+ EmptyString = s.
Proof. induction s as [|c s IH]; [done|]. by rewrite append_String, IH. Qed.

Lemma append_assoc (a b c : string) : (a +:+ b) +:+ c = a +:+ b +:+ c.
Proof. induction a as [|x a IH]; [done|]. by rewrite !append_String, IH. Qed.

Lemma append_empty_l (s : string) : EmptyString +:+ s = s.
Proof. reflexivity. Qed.

Ltac string_norm :=
  repeat (rewrite ?append_assoc, ?append_String, ?append_empty_l, ?append_empty_r).

Lemma replace_space_star (s : string) :
  Py.replace s " " "*" = Py.spaces_to_stars s.
Proof.
  unfold Py.replace. induction s as [|c s IH]; [done|].
  cbn [Py.replace_go Py.spaces_to_stars String.prefix String.length].
  destruct (Ascii.ascii_dec " " c) as [<-|Hc].
  - rewrite prefix_empty. cbn. by rewrite IH.
  - rewrite IH. f_equal.
    destruct (Ascii.eqb_spec c " ") as [->|]; done.
Qed.

Lemma brace_free_app (p q : string) :
  Py.brace_free (p +:+ q) = Py.brace_free p && Py.brace_free q.
Proof.
  induction p as [|c p IH]; [done|].
  rewrite append_String. cbn [Py.brace_free]. rewrite IH.
  by rewrite !andb_assoc.
Qed.

Lemma format_go_brace_free (p t : string) kw :
  Py.brace_free p = true →
  Fmt.format_go (p +:+ t) None kw =
  match Fmt.format_go t None kw with
  | inr r => inr (p +:+ r)
  | inl e => inl e
  end.
Proof.
  induction p as [|c p IH]; cbn [Py.brace_free].
  - intros _. change (EmptyString +:+ t) with t.
    by destruct (Fmt.format_go t None kw).
  - rewrite append_String. intros [[Ho Hc]%andb_true_iff Hp]%andb_true_iff.
    apply negb_true_iff in Ho, Hc.
    cbn [Fmt.format_go]. rewrite Ho, Hc, (IH Hp).
    by destruct (Fmt.format_go t None kw).
Qed.

Lemma format_offset (p v : string) :
  Py.brace_free p = true →
  Fmt.format (p +:+ "&offset={offset}") [("offset", v)] =
  inr (p +:+ "&offset=" +:+ v).
Proof.
  intros Hp. unfold Fmt.format. rewrite (format_go_brace_free _ _ _ Hp).
  cbn. by rewrite append_empty_r.
Qed.

Lemma brace_free_pretty_N_go (x : N) (s : string) :
  Py.brace_free s = true → Py.brace_free (pretty_N_go x s) = true.
Proof.
  revert s. induction (N.lt_wf_0 x) as [x _ IH]; intros s Hs.
  assert (x = 0 ∨ 0 < x)%N as [->|Hx] by lia.
  - by rewrite pretty_N_go_0.
  - rewrite pretty_N_go_step by done. apply IH.
    + by apply N.div_lt.
    + cbn [Py.brace_free]. rewrite Hs.
      unfold pretty_N_char. by repeat case_match.
Qed.

Lemma brace_free_pretty_N (x : N) : Py.brace_free (pretty x) = true.
Proof.
  unfold pretty, pretty_N. case_decide; [done|].
  by apply brace_free_pretty_N_go.
Qed.

Lemma brace_free_pretty_Z (z : Z) : Py.brace_free (pretty z) = true.
Proof.
  destruct z; [done| |]; unfold pretty, pretty_Z.
  - apply brace_free_pretty_N.
  - rewrite append_String. cbn [Py.brace_free]. apply brace_free_pretty_N.
Qed.

Lemma brace_free_str (x : option Z) : Py.brace_free (Py.str x) = true.
Proof. destruct x; [apply brace_free_pretty_Z|done]. Qed.

Section Properties.

Context {World : Type}.
Variable requests_get : string → World → Response * World.
Variable response_error : Response → option exn.
Variable bulk_base : string.
Variable ACTIVITY_FIELDS : gmap string (list loc).
Variable CONTACT_SYSTEM_FIELDS : list loc.
Variable ACCOUNT_SYSTEM_FIELDS : list loc.

Local Abbreviation get_fields_loop := (get_fields_loop requests_get response_error).
Local Abbreviation get_fields := (get_fields requests_get response_error bulk_base ACTIVITY_FIELDS).
Local Abbreviation served := (served requests_get response_error).
Local Abbreviation fields_url := (fields_url bulk_base).
Local Abbreviation State := (Bulk World).
Local Abbreviation add_fields := (add_fields requests_get response_error bulk_base ACTIVITY_FIELDS).
Local Abbreviation add_linked_fields := (add_linked_fields requests_get response_error bulk_base ACTIVITY_FIELDS).
Local Abbreviation filter_exists_list := (filter_exists_list requests_get response_error bulk_base).
Local Abbreviation add_leadscore_fields := (add_leadscore_fields requests_get response_error bulk_base).
Local Abbreviation add_system_fields :=
  (add_system_fields (World:=World) CONTACT_SYSTEM_FIELDS ACCOUNT_SYSTEM_FIELDS).
Local Abbreviation resolved_list := (resolved_list requests_get response_error bulk_base).
Local Abbreviation list_url := (list_url bulk_base).
Local Abbreviation list_search_url := (list_search_url bulk_base).
Local Abbreviation model_search_url := (model_search_url bulk_base).

(** ** get_fields *)

Lemma lookup_alloc (h ds : list dict) :
  (λ l : loc, (h ++ ds) !! l) <$> seq (length h) (length ds) = Some <$> ds.
Proof.
  revert h. induction ds as [|d ds IH]; intros h; [done|].
  cbn [length seq fmap list_fmap]. f_equal.
  - by rewrite lookup_app_r, Nat.sub_diag.
  - specialize (IH (h ++ [d])).
    rewrite length_app, Nat.add_1_r, <- app_assoc in IH. exact IH.
Qed.

Lemma get_fields_loop_served (url_base : string) (url_of : nat → string)
    (offset : nat) (w w' : World) (pages : list (list dict)) :
  (∀ k, Fmt.format url_base [("offset", pretty k)] = inr (url_of k)) →
  served url_of offset w pages w' →
  ∀ fuel fields (s : State),
    world s = w →
    (length pages ≤ fuel)%nat →
    get_fields_loop fuel url_base offset fields s =
    (Ret (fields ++ seq (length (heap s)) (length (concat pages))),
     mkBulk (job s) (heap s ++ concat pages) w'
            (sent s ++ (url_of <$> seq offset (length pages)))).
Proof.
  intros Hfmt Hserved.
  induction Hserved as [offset w r w' items Hget Hok Hitems Hmore
                       |offset w r w' items pages w'' Hget Hok Hitems Hmore _ IH];
    intros [|fuel] fields s Hw Hfuel; cbn in Hfuel; try lia;
    cbn [get_fields_loop];
    unfold bind, lift, get, _elq_error_, getitem, alloc, ret, raise;
    rewrite Hfmt, Hw, Hget; cbn; rewrite Hok, Hitems; cbn; rewrite Hmore; cbn.
  - by rewrite app_nil_r.
  - rewrite IH by (cbn; done || lia). cbn.
    rewrite !length_app, seq_app, <- !app_assoc. reflexivity.
Qed.

(** What [get_fields_loop] leaves alone, whatever its outcome. *)
Lemma get_fields_loop_frame (fuel : nat) (url_base : string) :
  ∀ offset fields (s : State) o s',
    get_fields_loop fuel url_base offset fields s = (o, s') →
    job s' = job s ∧
    ∃ ds, heap s' = heap s ++ ds ∧
          ∀ c, o = Ret c → c = fields ++ seq (length (heap s)) (length ds).
Proof.
  induction fuel as [|fuel IH]; intros offset fields s o s';
    cbn [get_fields_loop].
  { intros [= <- <-]. split; [done|]. exists []. by rewrite app_nil_r. }
  unfold bind, lift, get, _elq_error_, getitem, alloc, ret, raise.
  destruct (Fmt.format url_base _) as [e|url]; cbn.
  { intros [= <- <-]. split; [done|]. exists []. by rewrite app_nil_r. }
  destruct (requests_get url (world s)) as [r w]; cbn.
  destruct (response_error r); cbn;
    [intros [= <- <-]; split; [done|]; exists []; by rewrite app_nil_r|].
  destruct (d_items (json r)) as [items|]; cbn;
    [|intros [= <- <-]; split; [done|]; exists []; by rewrite app_nil_r].
  destruct (d_hasMore (json r)) as [[]|]; cbn.
  - intros Hloop. apply IH in Hloop as (Hjob & ds & Hheap & Hret).
    cbn in Hjob, Hheap, Hret. split; [done|]. exists (items ++ ds).
    split; [by rewrite Hheap, app_assoc|].
    intros c Hc. by rewrite (Hret c Hc), !length_app, seq_app, <- app_assoc.
  - intros [= <- <-]. cbn. split; [done|]. exists items. split; [done|].
    by intros c [= <-].
  - intros [= <- <-]. cbn. split; [done|]. exists items. split; [done|].
    intros c [=].
Qed.

(** [get_fields] never touches the job, only adds dicts to the store, and
    for a kind other than activities returns exactly the dicts it added. *)
Lemma get_fields_frame (fuel : nat) e i a (s : State) o s' :
  get_fields fuel e i a s = (o, s') →
  job s' = job s ∧
  ∃ ds, heap s' = heap s ++ ds ∧
        ∀ c, o = Ret c →
             py_eq (target (job s) e i a).1.1 "activities" = false →
             c = seq (length (heap s)) (length ds).
Proof.
  unfold get_fields, bind, get_job.
  destruct (target (job s) e i a) as [[obj id] act]; cbn.
  destruct (py_eq obj "activities") eqn:Hact.
  - intros Hrun. assert (s' = s) as ->.
    { destruct act as [t|]; [destruct (ACTIVITY_FIELDS !! t)|];
        by injection Hrun. }
    split; [done|]. exists []. split; [by rewrite app_nil_r|]. by intros.
  - destruct (py_in obj OBJECT_REQ_ID); cbn;
      intros Hloop; apply get_fields_loop_frame in Hloop as (? & ds & ? & Hc);
      (split; [done|]); exists ds; (split; [done|]); intros c ? _; by apply Hc.
Qed.

Lemma fields_url_format (obj : option string) (id : option Z) (k : nat) :
  Py.brace_free bulk_base = true →
  Py.brace_free (Py.str_s obj) = true →
  Fmt.format
    (bulk_base +:+
     (if py_in obj OBJECT_REQ_ID
      then String "/" (Py.str_s obj +:+ String "/" (Py.str id +:+ "/fields?limit=1000"))
      else String "/" (Py.str_s obj +:+ "/fields?limit=1000")) +:+
     "&offset={offset}")
    [("offset", pretty k)] = inr (fields_url obj id k).
Proof.
  intros Hb Ho. rewrite <- append_assoc, format_offset.
  - unfold fields_url. f_equal.
    destruct (py_in obj OBJECT_REQ_ID); by string_norm.
  - rewrite brace_free_app, Hb.
    destruct (py_in obj OBJECT_REQ_ID); cbn [Py.brace_free];
      rewrite !brace_free_app, ?Ho, ?brace_free_str; cbn [Py.brace_free];
      by rewrite ?brace_free_app, ?brace_free_str.
Qed.

(** C2. For a kind other than activities [get_fields] requests the pages
    at offsets 0, 1, 2, ... one after the other while the answers say
    [hasMore], and returns the items of all pages in the order fetched;
    for activities it returns the entry of the static table and requests
    nothing. *)
Theorem get_fields_pagination (fuel : nat) e i a (s : State)
    (obj : option string) (id : option Z) (act : option string) :
  target (job s) e i a = (obj, id, act) →
  (py_eq obj "activities" = false →
   Py.brace_free bulk_base = true →
   Py.brace_free (Py.str_s obj) = true →
   ∀ pages w',
     served (fields_url obj id) 0 (world s) pages w' →
     (length pages ≤ fuel)%nat →
     ∃ catalog s',
       get_fields fuel e i a s = (Ret catalog, s') ∧
       sent s' = sent s ++ (fields_url obj id <$> seq 0 (length pages)) ∧
       (λ l : loc, heap s' !! l) <$> catalog = Some <$> concat pages ∧
       world s' = w' ∧ job s' = job s) ∧
  (py_eq obj "activities" = true →
   ∀ t fs,
     act = Some t →
     ACTIVITY_FIELDS !! t = Some fs →
     get_fields fuel e i a s = (Ret fs, s)).
Proof.
  intros Ht. split.
  - intros Hact Hb Ho pages w' Hserved Hfuel.
    unfold get_fields, bind, get_job. rewrite Ht, Hact.
    eexists _, _. split.
    + destruct (py_in obj OBJECT_REQ_ID) eqn:Hin; cbn;
        (erewrite get_fields_loop_served;
         [reflexivity
         |intros k; pose proof (fields_url_format obj id k Hb Ho) as Hf;
          rewrite Hin in Hf; exact Hf
         |exact Hserved|reflexivity|exact Hfuel]).
    + cbn. repeat split. apply lookup_alloc.
  - intros Hact t fs -> Hfs.
    unfold get_fields, bind, get_job. rewrite Ht, Hact. cbn.
    by rewrite Hfs.
Qed.

(** ** Name resolution, add_fields *)

Lemma percent_not_found (field_name : string) :
  Fmt.percent "field not found: %s" field_name =
  inr ("field not found: " +:+ field_name).
Proof. cbn. by rewrite append_empty_r. Qed.

Lemma error_kind_not_found (field_name : string) :
  error_kind (Exception ("field not found: " +:+ field_name)) =
  Some FieldNotFoundError.
Proof. unfold error_kind. string_norm. cbn. by rewrite prefix_empty. Qed.

Lemma bind_run {A B} (m : M A) (k : A → M B) (s s' : State) a :
  m s = (Ret a, s') → bind m k s = k a s'.
Proof. unfold bind. by intros ->. Qed.

Lemma bind_run_raise {A B} (m : M A) (k : A → M B) (s s' : State) e :
  m s = (Raise e, s') → bind m k s = (Raise e, s').
Proof. unfold bind. by intros ->. Qed.

Lemma deref_run (l : loc) (d : dict) (s : State) :
  heap s !! l = Some d → deref l s = (Ret d, s).
Proof. unfold deref. by intros ->. Qed.

Lemma inner_loop (test : dict → M bool) (P : loc → Prop)
    `{∀ l, Decision (P l)} (fs : list loc) (s : State) :
  decides test P fs s →
  ∀ out m,
    for_each fs
      (λ field (acc : list loc * bool),
         bind (deref field) (λ d,
         bind (test d) (λ b : bool,
         if b then ret (acc.1 ++ [field], true) else ret acc)))
      (out, m) s =
    (Ret (out ++ filter P fs, m || bool_decide (Exists P fs)), s).
Proof.
  induction fs as [|l fs IH]; intros Hdec out m.
  - cbn [for_each]. unfold ret. rewrite filter_nil, app_nil_r.
    rewrite (bool_decide_eq_false_2 (Exists P [])), orb_false_r; [done|].
    by intros ?%Exists_nil.
  - destruct (Hdec l) as (d & Hl & Htest); [left|].
    cbn [for_each]. rewrite filter_cons.
    destruct (bool_decide (P l)) eqn:HP;
      [apply bool_decide_eq_true_1 in HP|apply bool_decide_eq_false_1 in HP];
      (erewrite bind_run; last first;
       [erewrite bind_run by (by apply deref_run); cbv beta;
        erewrite bind_run by (exact Htest); reflexivity|]);
      cbn [fst]; rewrite IH by (intros l' ?; apply Hdec; by right).
    + rewrite decide_True, <- app_assoc by done. cbn [app].
      by rewrite (bool_decide_eq_true_2 (Exists P (l :: fs))), orb_true_r
        by by left.
    + rewrite decide_False by done.
      rewrite (bool_decide_ext (Exists P (l :: fs)) (Exists P fs)); [done|].
      rewrite Exists_cons. tauto.
Qed.

Lemma resolve_name_found (test : string → dict → M bool) (P : loc → Prop)
    `{∀ l, Decision (P l)} (fields : M (list loc)) (fs : list loc)
    (n : string) (out : list loc) (s : State) :
  fields s = (Ret fs, s) →
  decides (test n) P fs s →
  Exists P fs →
  resolve_name test fields n out s = (Ret (out ++ filter P fs), s).
Proof.
  intros Hfields Hdec Hex. unfold resolve_name.
  erewrite bind_run by (exact Hfields). cbv beta.
  erewrite bind_run by (by apply (inner_loop _ P)).
  cbn [snd fst orb]. by rewrite bool_decide_eq_true_2.
Qed.

Lemma resolve_name_missing (test : string → dict → M bool) (P : loc → Prop)
    `{∀ l, Decision (P l)} (fields : M (list loc)) (fs : list loc)
    (n : string) (out : list loc) (s : State) :
  fields s = (Ret fs, s) →
  decides (test n) P fs s →
  ¬ Exists P fs →
  resolve_name test fields n out s =
  (Raise (Exception ("field not found: " +:+ n)), s).
Proof.
  intros Hfields Hdec Hex. unfold resolve_name.
  erewrite bind_run by (exact Hfields). cbv beta.
  erewrite bind_run by (by apply (inner_loop _ P)).
  cbn [snd fst orb]. rewrite bool_decide_eq_false_2 by done.
  cbn [negb]. by rewrite percent_not_found.
Qed.

(** The resolution loop when every name has a match. *)
Lemma for_each_found (test : string → dict → M bool) (P : string → loc → Prop)
    `{∀ n l, Decision (P n l)} (fields : M (list loc)) (fs : list loc)
    (names : list string) (s : State) :
  fields s = (Ret fs, s) →
  (∀ n, n ∈ names → decides (test n) (P n) fs s) →
  (∀ n, n ∈ names → Exists (P n) fs) →
  ∀ out,
    for_each names (resolve_name test fields) out s =
    (Ret (out ++ flat_map (λ n, filter (P n) fs) names), s).
Proof.
  intros Hfields. induction names as [|n names IH]; intros Hdec Hex out.
  - cbn. by rewrite app_nil_r.
  - cbn [for_each flat_map].
    erewrite bind_run
      by (apply (resolve_name_found _ (P n) _ fs); [done|apply Hdec|apply Hex]; by left).
    rewrite IH, app_assoc; [done|..]; intros; [apply Hdec|apply Hex]; by right.
Qed.

Lemma resolve_found (test : string → dict → M bool) (P : string → loc → Prop)
    `{∀ n l, Decision (P n l)} (fields : M (list loc)) (fs : list loc)
    (names : list string) (s : State) :
  fields s = (Ret fs, s) →
  (∀ n, n ∈ names → decides (test n) (P n) fs s) →
  (∀ n, n ∈ names → Exists (P n) fs) →
  resolve test fields names s =
  (Ret (flat_map (λ n, filter (P n) fs) names), s).
Proof. intros. unfold resolve. by erewrite (for_each_found _ P _ fs). Qed.

(** The resolution loop at the first name without a match. *)
Lemma for_each_missing (test : string → dict → M bool) (P : string → loc → Prop)
    `{∀ n l, Decision (P n l)} (fields : M (list loc)) (fs : list loc)
    (pre post : list string) (n : string) (s : State) :
  fields s = (Ret fs, s) →
  (∀ m, m ∈ pre ++ [n] → decides (test m) (P m) fs s) →
  (∀ m, m ∈ pre → Exists (P m) fs) →
  ¬ Exists (P n) fs →
  ∀ out,
    for_each (pre ++ n :: post) (resolve_name test fields) out s =
    (Raise (Exception ("field not found: " +:+ n)), s).
Proof.
  intros Hfields. induction pre as [|m pre IH]; intros Hdec Hex Hn out.
  - cbn [app for_each]. erewrite bind_run_raise; [done|].
    apply (resolve_name_missing _ (P n) _ fs); [done| |done]. apply Hdec. by left.
  - cbn [app for_each].
    erewrite bind_run
      by (apply (resolve_name_found _ (P m) _ fs); [done|apply Hdec|apply Hex]; by left).
    apply IH; [| |done]; intros; [apply Hdec|apply Hex]; by right.
Qed.

Lemma resolve_missing (test : string → dict → M bool) (P : string → loc → Prop)
    `{∀ n l, Decision (P n l)} (fields : M (list loc)) (fs : list loc)
    (pre post : list string) (n : string) (s : State) :
  fields s = (Ret fs, s) →
  (∀ m, m ∈ pre ++ [n] → decides (test m) (P m) fs s) →
  (∀ m, m ∈ pre → Exists (P m) fs) →
  ¬ Exists (P n) fs →
  resolve test fields (pre ++ n :: post) s =
  (Raise (Exception ("field not found: " +:+ n)), s).
Proof. intros. unfold resolve. by apply (for_each_missing _ P _ fs). Qed.

(** The comparisons of [add_fields] and [add_linked_fields] decide
    [loc_match] on dicts that have the keys they read. *)
Lemma matches_either_run (n : string) (d : dict) (s : State) :
  has_keys false d →
  matches_either n d s = (Ret (bool_decide (name_match false n d)), s).
Proof.
  intros [[nm Hnm] Hi]. destruct (Hi eq_refl) as [i Hin].
  destruct (bool_decide (name_match false n d)) eqn:Hb;
    [apply bool_decide_eq_true_1 in Hb|apply bool_decide_eq_false_1 in Hb];
    unfold name_match in Hb; rewrite Hin, Hnm in Hb;
    unfold matches_either, bind, getitem, ret; rewrite Hin, Hnm;
    destruct (String.eqb_spec n i); destruct (String.eqb_spec n nm);
    try done; exfalso; intuition congruence.
Qed.

Lemma matches_name_run (n : string) (d : dict) (s : State) :
  has_keys true d →
  matches_name n d s = (Ret (bool_decide (name_match true n d)), s).
Proof.
  intros [[nm Hnm] _].
  destruct (bool_decide (name_match true n d)) eqn:Hb;
    [apply bool_decide_eq_true_1 in Hb|apply bool_decide_eq_false_1 in Hb];
    unfold name_match in Hb; rewrite Hnm in Hb;
    unfold matches_name, bind, getitem, ret; rewrite Hnm;
    destruct (String.eqb_spec n nm); try done; exfalso; intuition congruence.
Qed.

Lemma add_fields_test_decides (n : string) (fs : list loc) (s : State) :
  let act := py_eq (job_elq_object (job s)) "activities" in
  (∀ l, l ∈ fs → ∃ d, heap s !! l = Some d ∧ has_keys act d) →
  decides
    (λ d, bind get_job (λ j,
          if negb (py_eq (job_elq_object j) "activities")
          then matches_either n d else matches_name n d))
    (loc_match (heap s) act n) fs s.
Proof.
  intros act Hkeys l Hl. destruct (Hkeys l Hl) as (d & Hd & Hk).
  exists d. split; [done|].
  rewrite (bool_decide_ext (loc_match (heap s) act n l) (name_match act n d))
    by (unfold loc_match; by rewrite Hd).
  unfold bind, get_job. fold act. destruct act; cbn [negb].
  - by apply matches_name_run.
  - by apply matches_either_run.
Qed.

Lemma extend_fields_run (l : list loc) (s : State) :
  extend_fields l s = (Ret tt, set_job (job_extend_fields (job s) l) s).
Proof. reflexivity. Qed.

(** C3. [add_fields] with names: each name selects the fields of the
    catalog whose internal name or display name is that very string (the
    display name only, for an activities job), and all of them are
    appended, name by name and in catalog order within a name. *)
Theorem add_fields_appends_every_match (fuel : nat) (names : list string)
    (s s1 : State) (catalog : list loc) :
  let act := py_eq (job_elq_object (job s)) "activities" in
  get_fields fuel None None None s = (Ret catalog, s1) →
  (∀ l, l ∈ catalog → ∃ d, heap s1 !! l = Some d ∧ has_keys act d) →
  (∀ n, n ∈ names → Exists (loc_match (heap s1) act n) catalog) →
  add_fields fuel (Some names) s =
  (Ret None,
   set_job (job_extend_fields (job s)
              (flat_map (λ n, filter (loc_match (heap s1) act n) catalog) names))
           s1).
Proof.
  intros act Hget Hkeys Hex.
  destruct (get_fields_frame _ _ _ _ _ _ _ Hget) as [Hjob _].
  unfold add_fields. erewrite bind_run by (exact Hget). cbv beta.
  erewrite bind_run; last first.
  { apply (resolve_found _ (loc_match (heap s1) act) _ catalog); [done| |done].
    intros n _. unfold act. rewrite <- Hjob.
    apply add_fields_test_decides. by rewrite Hjob. }
  cbv beta. erewrite bind_run by (apply extend_fields_run).
  unfold ret. by rewrite Hjob.
Qed.

(** C4. [add_fields] at the first name that matches nothing: the
    exception names that name, and the job is as it was before the call. *)
Theorem add_fields_unmatched_name (fuel : nat) (pre post : list string)
    (n : string) (s s1 : State) (catalog : list loc) :
  let act := py_eq (job_elq_object (job s)) "activities" in
  get_fields fuel None None None s = (Ret catalog, s1) →
  (∀ l, l ∈ catalog → ∃ d, heap s1 !! l = Some d ∧ has_keys act d) →
  (∀ m, m ∈ pre → Exists (loc_match (heap s1) act m) catalog) →
  ¬ Exists (loc_match (heap s1) act n) catalog →
  add_fields fuel (Some (pre ++ n :: post)) s =
    (Raise (Exception ("field not found: " +:+ n)), s1) ∧
  error_kind (Exception ("field not found: " +:+ n)) = Some FieldNotFoundError ∧
  job s1 = job s.
Proof.
  intros act Hget Hkeys Hex Hn.
  destruct (get_fields_frame _ _ _ _ _ _ _ Hget) as [Hjob _].
  split; [|split; [apply error_kind_not_found|done]].
  unfold add_fields. erewrite bind_run by (exact Hget). cbv beta.
  erewrite bind_run_raise; [done|].
  apply (resolve_missing _ (loc_match (heap s1) act) _ catalog); [done| |done..].
  intros m _. unfold act. rewrite <- Hjob.
  apply add_fields_test_decides. by rewrite Hjob.
Qed.

(** ** add_linked_fields *)

(** A loop that returns has kept every invariant its body keeps. *)
Lemma for_each_ret_inv {A S} (I : S → State → Prop) (xs : list A)
    (body : A → S → M S) :
  (∀ x acc s acc' s',
     x ∈ xs → I acc s → body x acc s = (Ret acc', s') → I acc' s') →
  ∀ acc s acc' s',
    I acc s → for_each xs body acc s = (Ret acc', s') → I acc' s'.
Proof.
  induction xs as [|x xs IH]; intros Hbody acc s acc' s' HI.
  - by intros [= <- <-].
  - cbn [for_each]. unfold bind.
    destruct (body x acc s) as [[acc1| | |] s1] eqn:Hx; try done.
    apply IH.
    + intros y ?????. eapply Hbody; [by right|done..].
    + eapply Hbody; [by left|done..].
Qed.

Lemma matches_either_state (n : string) (d : dict) (s : State) o s' :
  matches_either n d s = (o, s') → s' = s.
Proof.
  unfold matches_either, bind, getitem, ret, raise.
  destruct (d_internalName d) as [i|]; [|by intros [= _ <-]].
  destruct (String.eqb n i); [by intros [= _ <-]|].
  destruct (d_name d); by intros [= _ <-].
Qed.

(** What [resolve] returns are references taken from [fs], and a
    comparison that changes nothing makes [resolve] change nothing. *)
Lemma resolve_ret (test : string → dict → M bool) (fs : list loc)
    (names : list string) (s s' : State) (out : list loc) :
  (∀ n d (s0 : State) o s1, test n d s0 = (o, s1) → s1 = s0) →
  resolve test (ret fs) names s = (Ret out, s') →
  s' = s ∧ ∀ l, l ∈ out → l ∈ fs.
Proof.
  intros Htest. unfold resolve.
  apply (for_each_ret_inv (λ acc s0, s0 = s ∧ ∀ l, l ∈ acc → l ∈ fs));
    [|split; [done|by intros l ?%elem_of_nil]].
  intros n acc s0 acc' s1 _ [-> Hacc]. unfold resolve_name.
  unfold bind at 1. unfold ret at 1. unfold bind at 1.
  destruct (for_each fs _ (acc, false) s) as [[[acc1 m]| | |] s2] eqn:Hin;
    try done.
  assert (s2 = s ∧ ∀ l, l ∈ acc1 → l ∈ fs) as [-> Hacc1].
  { revert Hin.
    apply (for_each_ret_inv
             (λ (a : list loc * bool) s0, s0 = s ∧ ∀ l, l ∈ a.1 → l ∈ fs));
      [|done].
    intros l [a b] s3 [a' b'] s4 Hl [-> Ha]. unfold bind, deref.
    destruct (heap s !! l) as [d|]; [|done].
    destruct (test n d s) as [[[]| | |] s5] eqn:Hd; try done;
      apply Htest in Hd as ->; unfold ret; intros [= <- <- <-].
    - split; [done|]. cbn. intros l' [?| ->%list_elem_of_singleton]%elem_of_app; auto.
    - done. }
  destruct m; cbn [snd fst negb].
  - by intros [= <- <-].
  - unfold bind. by destruct (lift _ s) as [[]].
Qed.

Lemma percent_customobject (x : string) :
  Fmt.percent "CustomObject[%s].Contact." x =
  inr ("CustomObject[" +:+ x +:+ "].Contact.").
Proof. reflexivity. Qed.

Lemma percent_event (x : string) :
  Fmt.percent "Event[%s].Contact." x = inr ("Event[" +:+ x +:+ "].Contact.").
Proof. reflexivity. Qed.

(** [field['statement'] = new] writes the dict at [l] and nothing else. *)
Lemma store_statement_ret (l : loc) (d : dict) (new : string) (s s' : State) :
  heap s !! l = Some d →
  store l (set_statement d new) s = (Ret tt, s') →
  job s' = job s ∧ world s' = world s ∧ sent s' = sent s ∧
  length (heap s') = length (heap s) ∧
  (∀ l', l' ≠ l → heap s' !! l' = heap s !! l') ∧
  ∃ d', heap s' !! l = Some d' ∧ d_statement d' = Some new.
Proof.
  intros Hd [= <-]. cbn. repeat split.
  - apply length_insert.
  - intros l' ?. by apply list_lookup_insert_ne.
  - exists (set_statement d new). split; [|done].
    apply list_lookup_insert_eq. by eapply lookup_lt_Some.
Qed.

(** One pass of the rewriting loop's body over the dict at [l]: the
    statement of that dict becomes what the rule of the pair makes of it,
    in that dict; nothing else changes. *)
Lemma rewrite_statement_ret (lnk_obj : string) (l : loc) (s s' : State) :
  rewrite_statement lnk_obj l s = (Ret tt, s') →
  job s' = job s ∧ world s' = world s ∧ sent s' = sent s ∧
  length (heap s') = length (heap s) ∧
  (∀ l', l' ≠ l → heap s' !! l' = heap s !! l') ∧
  (∀ d, heap s !! l = Some d →
        ∃ d', heap s' !! l = Some d' ∧
              d_statement d' = rewrite_rule lnk_obj (job s) <$> d_statement d).
Proof.
  assert (s' = s →
          job s' = job s ∧ world s' = world s ∧ sent s' = sent s ∧
          length (heap s') = length (heap s) ∧
          (∀ l', l' ≠ l → heap s' !! l' = heap s !! l') ∧
          (∀ d, heap s !! l = Some d →
                ∃ d', heap s' !! l = Some d' ∧
                      d_statement d' = id <$> d_statement d)) as Hskip.
  { intros ->. repeat split. intros d Hd. exists d. split; [done|].
    by destruct (d_statement d). }
  unfold rewrite_statement, rewrite_rule, bind, get_job, deref, getitem.
  destruct (String.eqb lnk_obj "contacts");
    [destruct (py_eq (job_elq_object (job s)) "customobjects");
     [|destruct (py_eq (job_elq_object (job s)) "events")]
    |destruct (String.eqb lnk_obj "accounts")];
    try (intros [= <-]; by apply Hskip);
    (destruct (heap s !! l) as [d|] eqn:Hd; [|done]);
    (destruct (d_statement d) as [st|] eqn:Hst; [|done]);
    rewrite ?percent_customobject, ?percent_event; cbn; intros Hrun;
    destruct (store_statement_ret _ _ _ _ _ Hd Hrun) as (?&?&?&?&?&d'&?&Hd');
    repeat (split; [done|]); intros d0 [= <-]; exists d';
    (split; [done|]); by rewrite Hd', Hst.
Qed.

(** The rewriting loop: only the dicts it is given are written, and a
    dict given once holds the rule's image of its statement. *)
Lemma rewrite_loop_ret (lnk_obj : string) (out : list loc) (s s' : State) :
  for_each out (λ field _, rewrite_statement lnk_obj field) tt s = (Ret tt, s') →
  job s' = job s ∧ world s' = world s ∧ sent s' = sent s ∧
  length (heap s') = length (heap s) ∧
  (∀ l, l ∉ out → heap s' !! l = heap s !! l) ∧
  (NoDup out →
   ∀ l d, l ∈ out → heap s !! l = Some d →
          ∃ d', heap s' !! l = Some d' ∧
                d_statement d' = rewrite_rule lnk_obj (job s) <$> d_statement d).
Proof.
  revert s. induction out as [|l out IH]; intros s.
  - intros [= <-]. do 5 (split; [done|]). by intros _ l d ?%elem_of_nil.
  - cbn [for_each]. unfold bind.
    destruct (rewrite_statement lnk_obj l s) as [[[]| | |] s1] eqn:Hl; try done.
    intros Hrest.
    destruct (rewrite_statement_ret _ _ _ _ Hl) as (Hj1&Hw1&Hs1&Hlen1&Hne1&Hat1).
    destruct (IH _ Hrest) as (Hj&Hw&Hs&Hlen&Hne&Hat).
    split; [congruence|]. split; [congruence|]. split; [congruence|].
    split; [congruence|]. split.
    + intros l' [Hl' Hout]%not_elem_of_cons. by rewrite Hne, Hne1.
    + intros [Hnotin Hnodup]%NoDup_cons l' d [->|Hin]%elem_of_cons Hd.
      * destruct (Hat1 d Hd) as (d' & Hd' & Hst). exists d'.
        split; [by rewrite Hne|done].
      * assert (l' ≠ l) as Hneq by (intros ->; done).
        rewrite <- Hne1 in Hd by done.
        destruct (Hat Hnodup l' d Hin Hd) as (d' & Hd' & Hst).
        exists d'. split; [done|]. by rewrite Hst, Hj1.
Qed.

(** The catalog that [add_linked_fields] works on is always fetched: asked
    for the activities table it has no activity type to look up. *)
Lemma get_fields_linked_fresh (fuel : nat) (lnk_obj : string) (s s1 : State)
    (catalog : list loc) :
  get_fields fuel (Some lnk_obj) None None s = (Ret catalog, s1) →
  job s1 = job s ∧
  ∃ ds, heap s1 = heap s ++ ds ∧ catalog = seq (length (heap s)) (length ds).
Proof.
  intros Hget.
  destruct (get_fields_frame _ _ _ _ _ _ _ Hget) as (Hjob & ds & Hheap & Hc).
  split; [done|]. exists ds. split; [done|]. apply Hc; [done|].
  cbn. destruct (String.eqb lnk_obj "activities") eqn:Hact; [|done].
  revert Hget. unfold get_fields, bind, get_job. cbn.
  by rewrite Hact.
Qed.

Lemma set_statement_same (d : dict) (st : string) :
  d_statement d = Some st → set_statement d st = d.
Proof. destruct d. cbn. by intros ->. Qed.

(** The loop's body on a dict that has a statement: the dict at [l] is
    replaced by the same dict with the rule's image as its statement. *)
Lemma rewrite_statement_run (lnk_obj : string) (l : loc) (d : dict)
    (st : string) (s : State) :
  heap s !! l = Some d →
  d_statement d = Some st →
  rewrite_statement lnk_obj l s =
  (Ret tt,
   mkBulk (job s)
          (<[l := set_statement d (rewrite_rule lnk_obj (job s) st)]> (heap s))
          (world s) (sent s)).
Proof.
  intros Hd Hst.
  assert (∀ f, f = st →
            (Ret tt, s) =
            (Ret tt, mkBulk (job s) (<[l := set_statement d f]> (heap s))
                            (world s) (sent s))) as Hskip.
  { intros f ->. rewrite set_statement_same, list_insert_id by done.
    by destruct s. }
  unfold rewrite_statement, rewrite_rule, bind, get_job, deref, getitem.
  destruct (String.eqb lnk_obj "contacts");
    [destruct (py_eq (job_elq_object (job s)) "customobjects");
     [|destruct (py_eq (job_elq_object (job s)) "events")]
    |destruct (String.eqb lnk_obj "accounts")];
    try (by apply Hskip);
    rewrite Hd, Hst, ?percent_customobject, ?percent_event; reflexivity.
Qed.

Lemma for_each_app {A S} (xs ys : list A) (body : A → S → M S) (acc : S)
    (s : State) :
  for_each (xs ++ ys) body acc s =
  bind (for_each xs body acc) (for_each ys body) s.
Proof.
  revert acc s. induction xs as [|x xs IH]; intros acc s; [done|].
  cbn [app for_each]. unfold bind.
  destruct (body x acc s) as [[acc1| | |] s1]; [|done..].
  rewrite IH. reflexivity.
Qed.

(** The rewriting loop returns when every dict it is given has a
    statement. *)
Lemma rewrite_loop_total (lnk_obj : string) (out : list loc) (s : State) :
  (∀ l, l ∈ out → ∃ d, heap s !! l = Some d ∧ is_Some (d_statement d)) →
  ∃ s', for_each out (λ field _, rewrite_statement lnk_obj field) tt s = (Ret tt, s').
Proof.
  revert s. induction out as [|l out IH]; intros s Hst; [by eexists|].
  destruct (Hst l) as (d & Hd & st & Hs); [by left|].
  cbn [for_each].
  erewrite bind_run by (by apply (rewrite_statement_run lnk_obj l d st)).
  cbv beta. apply IH. intros l' Hl'. cbn [heap].
  destruct (decide (l' = l)) as [->|Hne].
  - exists (set_statement d (rewrite_rule lnk_obj (job s) st)).
    split; [|by eexists].
    apply list_lookup_insert_eq. by eapply lookup_lt_Some.
  - rewrite list_lookup_insert_ne by done. apply Hst. by right.
Qed.

(** In a loop that returns, the dict at a reference that is given once
    is rewritten once, whatever the other references are. *)
Lemma rewrite_loop_once (lnk_obj : string) (pre post : list loc) (l : loc)
    (d : dict) (st : string) (s s' : State) :
  for_each (pre ++ l :: post) (λ field _, rewrite_statement lnk_obj field) tt s =
    (Ret tt, s') →
  l ∉ pre → l ∉ post →
  heap s !! l = Some d → d_statement d = Some st →
  heap s' !! l = Some (set_statement d (rewrite_rule lnk_obj (job s) st)).
Proof.
  intros Hrun Hpre Hpost Hd Hst. rewrite for_each_app in Hrun.
  unfold bind at 1 in Hrun.
  destruct (for_each pre _ tt s) as [[[]| | |] sa] eqn:Ha; try done.
  cbn [for_each] in Hrun.
  destruct (rewrite_loop_ret _ _ _ _ Ha) as (Hja & _ & _ & _ & Hna & _).
  rewrite <- Hna in Hd by done.
  rewrite (bind_run _ _ _ _ _ (rewrite_statement_run lnk_obj l d st sa Hd Hst))
    in Hrun.
  destruct (rewrite_loop_ret _ _ _ _ Hrun) as (_ & _ & _ & _ & Hnb & _).
  rewrite Hnb by done. cbn [heap]. rewrite Hja.
  apply list_lookup_insert_eq. by eapply lookup_lt_Some.
Qed.

(** C9, as amended. [add_linked_fields] copies nothing. Given the catalog
    that [get_fields] fetches for the linked kind, whose dicts have the
    keys the call reads, and names that each match a field, the call
    returns, and [job_fields] is the list of the call followed, for each
    name in turn, by the references to the fetched dicts that the name
    matches. It writes the new statement into those dicts: no dict is
    created besides the fetched ones, the fetched dicts that no name
    resolved are as they were, and so is every dict that was in the store
    before the call (static tables, fields added earlier). A dict that
    occurs once among the resolved ones is the fetched dict with the rule's
    image as its statement, however often the others occur. *)
Theorem add_linked_fields_rewrites_in_place (fuel : nat) (lnk_obj : string)
    (names : list string) (s s1 : State) (catalog : list loc) :
  let out := flat_map (λ n, filter (loc_match (heap s1) false n) catalog) names in
  get_fields fuel (Some lnk_obj) None None s = (Ret catalog, s1) →
  (∀ l, l ∈ catalog →
        ∃ d, heap s1 !! l = Some d ∧ has_keys false d ∧ is_Some (d_statement d)) →
  (∀ n, n ∈ names → Exists (loc_match (heap s1) false n) catalog) →
  ∃ s',
    add_linked_fields fuel lnk_obj names s = (Ret tt, s') ∧
    job s' = mkJob (job_filters (job s)) (job_fields (job s) ++ out)
                   (job_type (job s)) (job_elq_object (job s))
                   (job_obj_id (job s)) (job_act_type (job s))
                   (job_options (job s)) ∧
    world s' = world s1 ∧ sent s' = sent s1 ∧
    length (heap s') = length (heap s1) ∧
    (∀ l, l ∈ out → l ∈ catalog) ∧
    (∀ l, l ∈ catalog → (length (heap s) ≤ l < length (heap s1))%nat) ∧
    (∀ l, l ∉ out → heap s' !! l = heap s1 !! l) ∧
    (∀ l, (l < length (heap s))%nat → heap s' !! l = heap s !! l) ∧
    (∀ l pre post d st,
       out = pre ++ l :: post → l ∉ pre → l ∉ post →
       heap s1 !! l = Some d → d_statement d = Some st →
       heap s' !! l =
         Some (set_statement d (rewrite_rule lnk_obj (job s) st))).
Proof.
  intros out Hget Hkeys Hex.
  destruct (get_fields_linked_fresh _ _ _ _ _ Hget) as (Hjob & ds & Hheap & Hcat).
  assert (∀ l, l ∈ out → l ∈ catalog) as Hout.
  { intros l Hl. apply list_elem_of_In, in_flat_map in Hl as (n & _ & Hl).
    apply list_elem_of_In, list_elem_of_filter in Hl. tauto. }
  assert (∀ l, l ∈ catalog → (length (heap s) ≤ l < length (heap s1))%nat)
    as Hfresh.
  { intros l. rewrite Hcat. intros ?%elem_of_seq. rewrite Hheap, length_app. lia. }
  destruct (rewrite_loop_total lnk_obj out s1) as [s3 Hloop].
  { intros l Hl%Hout. destruct (Hkeys l Hl) as (d & Hd & _ & Hst). by exists d. }
  destruct (rewrite_loop_ret _ _ _ _ Hloop) as (Hj & Hw & Hs & Hlen & Hne & _).
  exists (set_job (job_extend_fields (job s3) out) s3). split.
  { unfold add_linked_fields. erewrite bind_run by (exact Hget). cbv beta.
    erewrite bind_run; last first.
    { apply (resolve_found _ (loc_match (heap s1) false) _ catalog);
        [done| |done].
      intros n _ l Hl. destruct (Hkeys l Hl) as (d & Hd & Hk & _).
      exists d. split; [done|].
      rewrite (bool_decide_ext (loc_match (heap s1) false n l)
                 (name_match false n d))
        by (unfold loc_match; by rewrite Hd).
      by apply matches_either_run. }
    cbv beta. fold out. erewrite bind_run by (exact Hloop). reflexivity. }
  cbn [job world sent heap set_job job_extend_fields].
  rewrite Hj, Hjob.
  do 7 (split; [done|]). split.
  - intros l Hl. rewrite Hne, Hheap.
    + by apply lookup_app_l.
    + intros Hin%Hout%Hfresh. lia.
  - intros l pre post d st Hsplit Hpre Hpost Hd Hst. rewrite <- Hjob.
    apply (rewrite_loop_once lnk_obj pre post); try done.
    by rewrite <- Hsplit.
Qed.

(** ** _setup_ *)

Lemma setup_unrecognized (job_type elq_object : string) (obj_id : option Z)
    (act_type : option string) (s : State) :
  elq_object ∉ ELQ_OBJECTS →
  _setup_ job_type elq_object obj_id act_type s =
  (Raise (TypeError "not all arguments converted during string formatting"), s).
Proof.
  intros Hnot. unfold _setup_, py_in.
  by rewrite (bool_decide_eq_false_2 (elq_object ∈ ELQ_OBJECTS)).
Qed.

Lemma setup_missing_obj_id (job_type elq_object : string)
    (act_type : option string) (s : State) :
  elq_object ∈ OBJECT_REQ_ID →
  _setup_ job_type elq_object None act_type s =
  (Raise (Exception ("obj_id required for '" +:+ elq_object +:+ "'")), s).
Proof.
  unfold OBJECT_REQ_ID. rewrite !elem_of_cons, elem_of_nil.
  by intros [->|[->|[]]].
Qed.

Lemma setup_missing_act_type (job_type elq_object : string)
    (obj_id : option Z) (s : State) :
  elq_object ∈ OBJECT_REQ_TYPE →
  _setup_ job_type elq_object obj_id None s =
  (Raise (Exception ("act_type required for '" +:+ elq_object +:+ "'")), s).
Proof.
  unfold OBJECT_REQ_TYPE. rewrite !elem_of_cons, elem_of_nil.
  by intros [->|[]].
Qed.

Lemma setup_records (job_type elq_object : string) (obj_id : option Z)
    (act_type : option string) (s : State) :
  elq_object ∈ ELQ_OBJECTS →
  (elq_object ∈ OBJECT_REQ_ID → is_Some obj_id) →
  (elq_object ∈ OBJECT_REQ_TYPE → is_Some act_type) →
  _setup_ job_type elq_object obj_id act_type s =
  (Ret tt,
   set_job (mkJob (job_filters (job s)) (job_fields (job s)) (Some job_type)
                  (Some elq_object) obj_id act_type (job_options (job s))) s).
Proof.
  intros Hin Hid Hact. unfold _setup_, py_in.
  rewrite (bool_decide_eq_true_2 (elq_object ∈ ELQ_OBJECTS)) by done.
  cbn [negb].
  destruct (bool_decide (elq_object ∈ OBJECT_REQ_ID)) eqn:Hreq;
    [apply bool_decide_eq_true_1, Hid in Hreq as [id ->]|];
    destruct (bool_decide (elq_object ∈ OBJECT_REQ_TYPE)) eqn:Htyp;
    [apply bool_decide_eq_true_1, Hact in Htyp as [t ->]| |
     apply bool_decide_eq_true_1, Hact in Htyp as [t ->]|];
    cbn; try done; by destruct obj_id.
Qed.

(** C5, at an object kind outside the enumeration. The message of the
    check is written with [$s] where its two siblings have [%s], so the
    operator [%] finds no place for its argument and raises [TypeError]
    before the [Exception] is built. *)
Theorem setup_unrecognized_kind_TypeError (s : State) :
  _setup_ "exports" "leads" None None s =
    (Raise (TypeError "not all arguments converted during string formatting"), s) ∧
  error_kind (TypeError "not all arguments converted during string formatting") = None ∧
  _setup_ "exports" "events" None None s =
    (Raise (Exception "obj_id required for 'events'"), s) ∧
  error_kind (Exception "obj_id required for 'events'") = Some ConfigurationError.
Proof. repeat split. Qed.

(** ** filter_exists_list, add_leadscore_fields *)

Lemma format_list_url (obj id : string) :
  Fmt.format "/{obj}/lists/{list_id}" [("obj", obj); ("list_id", id)] =
  inr ("/" +:+ obj +:+ "/lists/" +:+ id).
Proof. cbn. by rewrite append_empty_r. Qed.

Lemma format_list_search (obj name : string) :
  Fmt.format ("/{obj}/lists?q=" +:+ Py.dquote +:+ "name={name}" +:+ Py.dquote)
             [("obj", obj); ("name", name)] =
  inr ("/" +:+ obj +:+ "/lists?q=" +:+ Py.dquote +:+ "name=" +:+ name +:+ Py.dquote).
Proof. reflexivity. Qed.

Lemma format_model_search (name : string) :
  Fmt.format ("/contacts/scoring/models?q=" +:+ Py.dquote +:+ "name={name}" +:+
              Py.dquote) [("name", name)] =
  inr ("/contacts/scoring/models?q=" +:+ Py.dquote +:+ "name=" +:+ name +:+ Py.dquote).
Proof. reflexivity. Qed.

Lemma format_exists (st : string) :
  Fmt.format exists_temp [("statement", st)] = inr (" EXISTS('" +:+ st +:+ "') ").
Proof. reflexivity. Qed.

Lemma get_run (url : string) (s : State) r w' :
  requests_get url (world s) = (r, w') →
  get requests_get url s = (Ret r, mkBulk (job s) (heap s) w' (sent s ++ [url])).
Proof. unfold get. by intros ->. Qed.

(** The lookup by ID, up to the key [statement] of the answer. *)
Lemma filter_exists_list_by_id (list_id : Z) (name : option string)
    (s : State) r w' :
  requests_get (list_url (job s) list_id) (world s) = (r, w') →
  response_error r = None →
  filter_exists_list (Some list_id) name s =
  let s1 := mkBulk (job s) (heap s) w' (sent s ++ [list_url (job s) list_id]) in
  match d_statement (json r) with
  | Some st => (Ret tt, set_job (job_append_filter (job s) (" EXISTS('" +:+ st +:+ "') ")) s1)
  | None => (Raise (KeyError (Some "statement")), s1)
  end.
Proof.
  intros Hget Hok. unfold filter_exists_list, bind at 1, get_job.
  rewrite format_list_url. unfold bind at 1, lift, ret at 1.
  assert (bulk_base +:+ "/" +:+ Py.str_s (job_elq_object (job s)) +:+
          "/lists/" +:+ pretty list_id = list_url (job s) list_id) as ->
    by done.
  erewrite bind_run by (by apply get_run). cbv beta.
  unfold bind at 1, _elq_error_. rewrite Hok. unfold ret at 1.
  unfold bind at 1, getitem.
  destruct (d_statement (json r)) as [st|]; [|done].
  unfold ret at 1. by rewrite format_exists.
Qed.

(** The lookup by name, up to the first item of the answer. *)
Lemma filter_exists_list_by_name (name : string) (s : State) r w' :
  requests_get (list_search_url (job s) name) (world s) = (r, w') →
  response_error r = None →
  filter_exists_list None (Some name) s =
  let s1 := mkBulk (job s) (heap s) w' (sent s ++ [list_search_url (job s) name]) in
  match d_items (json r) with
  | Some (lst :: _) =>
      match d_statement lst with
      | Some st => (Ret tt, set_job (job_append_filter (job s) (" EXISTS('" +:+ st +:+ "') ")) s1)
      | None => (Raise (KeyError (Some "statement")), s1)
      end
  | Some [] => (Raise IndexError, s1)
  | None => (Raise (KeyError (Some "items")), s1)
  end.
Proof.
  intros Hget Hok. unfold filter_exists_list, bind at 1, get_job.
  rewrite format_list_search, replace_space_star.
  unfold bind at 1, lift, ret at 1.
  assert (bulk_base +:+ "/" +:+ Py.str_s (job_elq_object (job s)) +:+
          "/lists?q=" +:+ Py.dquote +:+ "name=" +:+ Py.spaces_to_stars name +:+
          Py.dquote = list_search_url (job s) name) as -> by done.
  erewrite bind_run by (by apply get_run). cbv beta.
  unfold bind at 1, _elq_error_. rewrite Hok. unfold ret at 1.
  unfold bind at 1, getitem.
  destruct (d_items (json r)) as [[|lst rest]|]; [done| |done].
  unfold ret at 1, first. unfold bind at 1, ret at 1. unfold bind at 1.
  destruct (d_statement lst) as [st|]; [|done].
  unfold ret at 1. by rewrite format_exists.
Qed.

Lemma add_leadscore_fields_by_name (name : string) (s : State) r w' :
  requests_get (model_search_url name) (world s) = (r, w') →
  response_error r = None →
  d_items (json r) = Some [] →
  add_leadscore_fields None (Some name) s =
  (Raise IndexError, mkBulk (job s) (heap s) w' (sent s ++ [model_search_url name])).
Proof.
  intros Hget Hok Hitems. unfold add_leadscore_fields.
  rewrite format_model_search, replace_space_star.
  unfold bind at 1, lift, ret at 1.
  assert (bulk_base +:+ "/contacts/scoring/models?q=" +:+ Py.dquote +:+
          "name=" +:+ Py.spaces_to_stars name +:+ Py.dquote =
          model_search_url name) as -> by done.
  erewrite bind_run by (by apply get_run). cbv beta.
  unfold bind at 1, _elq_error_. rewrite Hok. unfold ret at 1.
  unfold bind at 1, getitem. by rewrite Hitems.
Qed.

(** C6. [filter_exists_list] returns exactly when the lookup resolves to
    a list that has a statement. The job it leaves has one filter more, at
    the end of [job_filters]: that statement, as it is, between [ EXISTS(']
    and [') ]; the filters before it and the other entries of the job are
    the ones of the call, the store is untouched, and the one URL requested
    is the lookup's. *)
Theorem filter_exists_list_filter (list_id : option Z) (name : option string)
    (s s' : State) :
  filter_exists_list list_id name s = (Ret tt, s') ↔
  ∃ url w' lst st,
    resolved_list s list_id name url w' lst ∧
    d_statement lst = Some st ∧
    s' = mkBulk (mkJob (job_filters (job s) ++ [" EXISTS('" +:+ st +:+ "') "])
                       (job_fields (job s)) (job_type (job s))
                       (job_elq_object (job s)) (job_obj_id (job s))
                       (job_act_type (job s)) (job_options (job s)))
                (heap s) w' (sent s ++ [url]).
Proof.
  split.
  - destruct list_id as [id|]; [|destruct name as [nm|]; [|done]].
    + destruct (requests_get (list_url (job s) id) (world s)) as [r w'] eqn:Hget.
      destruct (response_error r) as [e|] eqn:Hok.
      { unfold filter_exists_list, bind at 1, get_job.
        rewrite format_list_url. unfold bind at 1, lift, ret at 1.
        erewrite bind_run by (by apply get_run). cbv beta.
        unfold bind at 1, _elq_error_. by rewrite Hok. }
      rewrite (filter_exists_list_by_id _ _ _ _ _ Hget Hok). cbn.
      destruct (d_statement (json r)) as [st|] eqn:Hst; [|done].
      intros [= <-]. exists (list_url (job s) id), w', (json r), st.
      split; [by apply resolved_by_id|done].
    + destruct (requests_get (list_search_url (job s) nm) (world s))
        as [r w'] eqn:Hget.
      destruct (response_error r) as [e|] eqn:Hok.
      { unfold filter_exists_list, bind at 1, get_job.
        rewrite format_list_search, replace_space_star.
        unfold bind at 1, lift, ret at 1.
        erewrite bind_run by (by apply get_run). cbv beta.
        unfold bind at 1, _elq_error_. by rewrite Hok. }
      rewrite (filter_exists_list_by_name _ _ _ _ Hget Hok). cbn.
      destruct (d_items (json r)) as [[|lst rest]|] eqn:Hitems; [done| |done].
      destruct (d_statement lst) as [st|] eqn:Hst; [|done].
      intros [= <-]. exists (list_search_url (job s) nm), w', lst, st.
      split; [by eapply resolved_by_name|done].
  - intros (url & w' & lst & st & Hres & Hst & ->).
    destruct Hres as [id nm r w1 Hget Hok|nm r w1 l rest Hget Hok Hitems].
    + rewrite (filter_exists_list_by_id _ _ _ _ _ Hget Hok). cbn.
      by rewrite Hst.
    + rewrite (filter_exists_list_by_name _ _ _ _ Hget Hok). cbn.
      by rewrite Hitems, Hst.
Qed.

(** C7. The lookup by name requests the search URL in which every space
    of the name is a star, uses the first item of the answer, and appends
    the filter that the lookup by ID appends when the record it gets is
    that same record. *)
Theorem filter_exists_list_by_name_as_by_id (name : string) (s : State)
    r w' (lst : dict) (rest : list dict) (st : string) :
  requests_get (list_search_url (job s) name) (world s) = (r, w') →
  response_error r = None →
  d_items (json r) = Some (lst :: rest) →
  d_statement lst = Some st →
  ∃ s',
    filter_exists_list None (Some name) s = (Ret tt, s') ∧
    sent s' = sent s ++ [list_search_url (job s) name] ∧
    job s' = job_append_filter (job s) (" EXISTS('" +:+ st +:+ "') ") ∧
    ∀ (list_id : Z) (s2 : State) r2 w2,
      requests_get (list_url (job s2) list_id) (world s2) = (r2, w2) →
      response_error r2 = None →
      json r2 = lst →
      ∃ s2',
        filter_exists_list (Some list_id) None s2 = (Ret tt, s2') ∧
        last (job_filters (job s2')) = last (job_filters (job s')).
Proof.
  intros Hget Hok Hitems Hst.
  exists (mkBulk (job_append_filter (job s) (" EXISTS('" +:+ st +:+ "') "))
                 (heap s) w' (sent s ++ [list_search_url (job s) name])).
  split.
  { rewrite (filter_exists_list_by_name _ _ _ _ Hget Hok). cbn.
    by rewrite Hitems, Hst. }
  split; [done|]. split; [done|].
  intros id s2 r2 w2 Hget2 Hok2 Hsame.
  exists (mkBulk (job_append_filter (job s2) (" EXISTS('" +:+ st +:+ "') "))
                 (heap s2) w2 (sent s2 ++ [list_url (job s2) id])).
  split.
  { rewrite (filter_exists_list_by_id _ None _ _ _ Hget2 Hok2). cbn.
    by rewrite Hsame, Hst. }
  cbn [job job_filters job_append_filter]. by rewrite !last_snoc.
Qed.

(** C8, as amended. With neither argument both operations raise the
    exception of a configuration error and change nothing; with both
    arguments the ID is used and the name is ignored; with a name only and
    an empty search result, taking the first item raises [IndexError],
    which is none of the specification's kinds, and the job is unchanged. *)
Theorem lookups_by_id_or_name (name : string) (s : State) :
  (filter_exists_list None None s =
     (Raise (Exception "list_id or name required"), s) ∧
   error_kind (Exception "list_id or name required") = Some ConfigurationError) ∧
  (add_leadscore_fields None None s =
     (Raise (Exception "model_id or name required"), s) ∧
   error_kind (Exception "model_id or name required") = Some ConfigurationError) ∧
  (∀ id, filter_exists_list (Some id) (Some name) s =
         filter_exists_list (Some id) None s) ∧
  (∀ id, add_leadscore_fields (Some id) (Some name) s =
         add_leadscore_fields (Some id) None s) ∧
  (∀ r w',
     requests_get (list_search_url (job s) name) (world s) = (r, w') →
     response_error r = None →
     d_items (json r) = Some [] →
     ∃ s', filter_exists_list None (Some name) s = (Raise IndexError, s') ∧
           job s' = job s) ∧
  (∀ r w',
     requests_get (model_search_url name) (world s) = (r, w') →
     response_error r = None →
     d_items (json r) = Some [] →
     ∃ s', add_leadscore_fields None (Some name) s = (Raise IndexError, s') ∧
           job s' = job s) ∧
  error_kind IndexError = None.
Proof.
  do 4 (split; [done|]). split; [|split; [|done]].
  - intros r w' Hget Hok Hitems.
    exists (mkBulk (job s) (heap s) w' (sent s ++ [list_search_url (job s) name])).
    split; [|done].
    rewrite (filter_exists_list_by_name _ _ _ _ Hget Hok). cbn.
    by rewrite Hitems.
  - intros r w' Hget Hok Hitems.
    exists (mkBulk (job s) (heap s) w' (sent s ++ [model_search_url name])).
    split; [|done]. by apply (add_leadscore_fields_by_name _ _ r).
Qed.

(** ** add_system_fields *)

Lemma extend_fields_nil (s : State) :
  set_job (job_extend_fields (job s) []) s = s.
Proof.
  destruct s as [[]]. unfold set_job, job_extend_fields. cbn.
  by rewrite app_nil_r.
Qed.

(** C10, as amended. On a job whose object kind is neither contacts nor
    accounts [fieldset] is never assigned: without names, or with at least
    one name, reading it raises [UnboundLocalError] and nothing has
    changed; with an empty list of names it is never read, and the call
    returns with the job as it was. *)
Theorem add_system_fields_unbound (field_input : option (list string))
    (s : State) :
  py_eq (job_elq_object (job s)) "contacts" = false →
  py_eq (job_elq_object (job s)) "accounts" = false →
  (field_input ≠ Some [] →
   add_system_fields field_input s = (Raise (UnboundLocalError "fieldset"), s)) ∧
  (field_input = Some [] → add_system_fields field_input s = (Ret None, s)) ∧
  error_kind (UnboundLocalError "fieldset") = None.
Proof.
  intros Hc Ha. unfold add_system_fields, bind at 1, get_job.
  rewrite Hc, Ha. repeat split.
  - destruct field_input as [[|n names]|]; done.
  - intros ->. cbn. by rewrite extend_fields_nil.
Qed.

(** ** Further properties: _setup_ *)

Local Abbreviation refused := (refused requests_get response_error).
Local Abbreviation resolved_model := (resolved_model requests_get response_error bulk_base).
Local Abbreviation model_url := (model_url bulk_base).

Lemma req_id_not_req_type (e : string) :
  e ∈ OBJECT_REQ_ID → e ∈ OBJECT_REQ_TYPE → False.
Proof.
  unfold OBJECT_REQ_ID, OBJECT_REQ_TYPE. rewrite !elem_of_cons, !elem_of_nil.
  intros [->|[->|[]]] [[=]|[]].
Qed.

Lemma req_id_in_enum (e : string) : e ∈ OBJECT_REQ_ID → e ∈ ELQ_OBJECTS.
Proof.
  unfold OBJECT_REQ_ID, ELQ_OBJECTS. rewrite !elem_of_cons, !elem_of_nil.
  intros [->|[->|[]]]; auto 10.
Qed.

Lemma req_type_in_enum (e : string) : e ∈ OBJECT_REQ_TYPE → e ∈ ELQ_OBJECTS.
Proof.
  unfold OBJECT_REQ_TYPE, ELQ_OBJECTS. rewrite !elem_of_cons, !elem_of_nil.
  intros [->|[]]; auto 10.
Qed.

(** X1. [_setup_] returns exactly on an object kind of the enumeration
    that comes with the parent ID or activity type it requires; it then
    records the four values as given (whatever the job type is) and keeps
    the filters, fields and options of the job. *)
Theorem setup_returns_iff (job_type elq_object : string) (obj_id : option Z)
    (act_type : option string) (s s' : State) :
  _setup_ job_type elq_object obj_id act_type s = (Ret tt, s') ↔
  valid_setup elq_object obj_id act_type ∧
  s' = set_job (mkJob (job_filters (job s)) (job_fields (job s)) (Some job_type)
                      (Some elq_object) obj_id act_type (job_options (job s))) s.
Proof.
  split.
  - intros Hrun.
    assert (valid_setup elq_object obj_id act_type) as Hvalid.
    { split; [|split].
      - destruct (decide (elq_object ∈ ELQ_OBJECTS)) as [Hin|Hout]; [done|].
        by rewrite setup_unrecognized in Hrun.
      - intros Hid. destruct obj_id; [by eexists|].
        by rewrite setup_missing_obj_id in Hrun.
      - intros Hty. destruct act_type; [by eexists|].
        by rewrite setup_missing_act_type in Hrun. }
    split; [done|]. destruct Hvalid as (?&?&?).
    rewrite setup_records in Hrun by done. by injection Hrun.
  - intros [(Hin & Hid & Hty) ->]. by apply setup_records.
Qed.

(** X2. A [_setup_] that does not return has raised, and has changed
    nothing. For a kind that needs a parent ID the exception says that
    [obj_id] is required for that kind, for a kind that needs an activity
    type that [act_type] is; each is a configuration error. *)
Theorem setup_failure (job_type elq_object : string) (obj_id : option Z)
    (act_type : option string) (s s' : State) (o : outcome unit) :
  _setup_ job_type elq_object obj_id act_type s = (o, s') →
  o ≠ Ret tt →
  s' = s ∧
  ∃ e, o = Raise e ∧
       (elq_object ∈ OBJECT_REQ_ID →
        e = Exception ("obj_id required for '" +:+ elq_object +:+ "'") ∧
        error_kind e = Some ConfigurationError) ∧
       (elq_object ∈ OBJECT_REQ_TYPE →
        e = Exception ("act_type required for '" +:+ elq_object +:+ "'") ∧
        error_kind e = Some ConfigurationError).
Proof.
  intros Hrun Ho.
  destruct (decide (elq_object ∈ ELQ_OBJECTS)) as [Hin|Hout].
  - destruct (decide (elq_object ∈ OBJECT_REQ_ID)) as [Hid|Hid].
    + destruct obj_id as [id|].
      * rewrite setup_records in Hrun; [by injection Hrun as <- _| done |by eexists|].
        intros Hty. by destruct (req_id_not_req_type elq_object).
      * rewrite setup_missing_obj_id in Hrun by done. injection Hrun as <- <-.
        split; [done|]. eexists. split; [done|]. split.
        -- intros _. split; [done|]. revert Hid. unfold OBJECT_REQ_ID.
           rewrite !elem_of_cons, elem_of_nil. by intros [->|[->|[]]].
        -- intros Hty. by destruct (req_id_not_req_type elq_object).
    + destruct (decide (elq_object ∈ OBJECT_REQ_TYPE)) as [Hty|Hty].
      * destruct act_type as [t|].
        -- rewrite setup_records in Hrun; [by injection Hrun as <- _|done..|by eexists].
        -- rewrite setup_missing_act_type in Hrun by done.
           injection Hrun as <- <-. split; [done|]. eexists. split; [done|].
           split; [done|]. intros _. split; [done|]. revert Hty.
           unfold OBJECT_REQ_TYPE. rewrite !elem_of_cons, elem_of_nil.
           by intros [->|[]].
      * rewrite setup_records in Hrun; [by injection Hrun as <- _|done..].
  - rewrite setup_unrecognized in Hrun by done. injection Hrun as <- <-.
    split; [done|]. eexists. split; [done|].
    split; intros Hin; exfalso; apply Hout;
      [by apply req_id_in_enum|by apply req_type_in_enum].
Qed.

(** ** Further properties: get_fields *)

Lemma get_fields_as_loop (fuel : nat) e i a (s : State)
    (obj : option string) (id : option Z) (act : option string) :
  target (job s) e i a = (obj, id, act) →
  py_eq obj "activities" = false →
  Py.brace_free bulk_base = true →
  Py.brace_free (Py.str_s obj) = true →
  ∃ url_base,
    (∀ k, Fmt.format url_base [("offset", pretty k)] = inr (fields_url obj id k)) ∧
    ∀ fuel, get_fields fuel e i a s = get_fields_loop fuel url_base 0 [] s.
Proof.
  intros Ht Hact Hb Ho. eexists. split.
  - intros k. apply (fields_url_format obj id k Hb Ho).
  - intros fuel'. unfold get_fields, bind, get_job. rewrite Ht, Hact.
    by destruct (py_in obj OBJECT_REQ_ID).
Qed.

(** One turn of the [while] loop. *)
Lemma get_fields_loop_step (fuel : nat) (url_base url : string) (offset : nat)
    (fields : list loc) (s : State) r w' :
  Fmt.format url_base [("offset", pretty offset)] = inr url →
  requests_get url (world s) = (r, w') →
  get_fields_loop (S fuel) url_base offset fields s =
  match response_error r with
  | Some e => (Raise e, mkBulk (job s) (heap s) w' (sent s ++ [url]))
  | None =>
      match d_items (json r) with
      | None => (Raise (KeyError (Some "items")),
                 mkBulk (job s) (heap s) w' (sent s ++ [url]))
      | Some items =>
          let s2 := mkBulk (job s) (heap s ++ items) w' (sent s ++ [url]) in
          let new := fields ++ seq (length (heap s)) (length items) in
          match d_hasMore (json r) with
          | None => (Raise (KeyError (Some "hasMore")), s2)
          | Some true => get_fields_loop fuel url_base (S offset) new s2
          | Some false => (Ret new, s2)
          end
      end
  end.
Proof.
  intros Hfmt Hget. cbn [get_fields_loop].
  unfold bind, lift, get, _elq_error_, getitem, alloc, ret, raise.
  rewrite Hfmt, Hget. cbn.
  destruct (response_error r); [done|]. cbn.
  destruct (d_items (json r)); [|done]. cbn.
  by destruct (d_hasMore (json r)) as [[]|].
Qed.

Lemma get_fields_loop_sent (fuel : nat) (url_base : string) :
  ∀ offset fields (s : State) o s',
    get_fields_loop fuel url_base offset fields s = (o, s') →
    ∃ urls, sent s' = sent s ++ urls.
Proof.
  induction fuel as [|fuel IH]; intros offset fields s o s'.
  { intros [= <- <-]. exists []. by rewrite app_nil_r. }
  destruct (Fmt.format url_base [("offset", pretty offset)]) as [e|url] eqn:Hfmt.
  { cbn [get_fields_loop]. unfold bind, lift. rewrite Hfmt.
    intros [= <- <-]. exists []. by rewrite app_nil_r. }
  destruct (requests_get url (world s)) as [r w'] eqn:Hget.
  rewrite (get_fields_loop_step _ _ _ _ _ _ _ _ Hfmt Hget).
  destruct (response_error r); [intros [= <- <-]; by eexists|].
  destruct (d_items (json r)); [|intros [= <- <-]; by eexists].
  destruct (d_hasMore (json r)) as [[]|]; cbn;
    [|intros [= <- <-]; by eexists..].
  intros (urls & Hs)%IH. cbn in Hs. exists (url :: urls).
  by rewrite Hs, <- app_assoc.
Qed.

Lemma get_fields_keeps_job_aux (fuel : nat) e i a (s s' : State)
    (o : outcome (list loc)) :
  get_fields fuel e i a s = (o, s') →
  job s' = job s ∧ store_kept (heap s) (heap s').
Proof.
  intros Hrun.
  destruct (get_fields_frame _ _ _ _ _ _ _ Hrun) as (Hjob & ds & Hheap & _).
  split; [done|]. intros l d Hl. rewrite Hheap. by apply lookup_app_l_Some.
Qed.

(** X3. Whatever its outcome, [get_fields] leaves the job as it is, keeps
    every dict of the store, and only adds to the requests made. *)
Theorem get_fields_keeps_job (fuel : nat) e i a (s s' : State)
    (o : outcome (list loc)) :
  get_fields fuel e i a s = (o, s') →
  job s' = job s ∧ store_kept (heap s) (heap s') ∧
  ∃ urls, sent s' = sent s ++ urls.
Proof.
  intros Hrun.
  destruct (get_fields_keeps_job_aux _ _ _ _ _ _ _ Hrun) as (Hjob & Hkept).
  split; [done|]. split; [done|].
  revert Hrun. unfold get_fields, bind, get_job.
  destruct (target (job s) e i a) as [[obj id] act].
  destruct (py_eq obj "activities").
  - intros Hrun. exists []. rewrite app_nil_r.
    destruct act as [t|]; [destruct (ACTIVITY_FIELDS !! t)|];
      by injection Hrun as _ <-.
  - destruct (py_in obj OBJECT_REQ_ID); cbn; apply get_fields_loop_sent.
Qed.

Lemma get_fields_loop_refused (url_base : string) (url_of : nat → string)
    (offset : nat) (w w' : World) (n : nat) (e : exn) :
  (∀ k, Fmt.format url_base [("offset", pretty k)] = inr (url_of k)) →
  refused url_of offset w n e w' →
  ∀ fuel fields (s : State),
    world s = w →
    (n < fuel)%nat →
    ∃ ds,
      get_fields_loop fuel url_base offset fields s =
      (Raise e,
       mkBulk (job s) (heap s ++ ds) w'
              (sent s ++ (url_of <$> seq offset (S n)))).
Proof.
  intros Hfmt Href.
  induction Href as [offset w r w' e Hget Herr
                    |offset w r w' items n e w'' Hget Hok Hitems Hmore _ IH];
    intros [|fuel] fields s Hw Hfuel; try lia; subst w;
    rewrite (get_fields_loop_step _ _ _ _ _ _ _ _ (Hfmt offset) Hget).
  - rewrite Herr. exists []. by rewrite app_nil_r.
  - rewrite Hok, Hitems, Hmore. cbn zeta.
    destruct (IH fuel (fields ++ seq (length (heap s)) (length items))
                (mkBulk (job s) (heap s ++ items) w' (sent s ++ [url_of offset]))
                eq_refl ltac:(lia)) as (ds & ->).
    exists (items ++ ds). cbn. by rewrite <- !app_assoc.
Qed.

(** X4. When a page is refused, [get_fields] raises the error of that
    page: the pages fetched before it are not returned, and the job is as
    it was. The requests made are those up to the refused page. *)
Theorem get_fields_refused_page (fuel : nat) e i a (s : State)
    (obj : option string) (id : option Z) (act : option string)
    (n : nat) (err : exn) (w' : World) :
  target (job s) e i a = (obj, id, act) →
  py_eq obj "activities" = false →
  Py.brace_free bulk_base = true →
  Py.brace_free (Py.str_s obj) = true →
  refused (fields_url obj id) 0 (world s) n err w' →
  (n < fuel)%nat →
  ∃ s',
    get_fields fuel e i a s = (Raise err, s') ∧
    job s' = job s ∧ world s' = w' ∧
    sent s' = sent s ++ (fields_url obj id <$> seq 0 (S n)).
Proof.
  intros Ht Hact Hb Ho Href Hfuel.
  destruct (get_fields_as_loop fuel e i a s obj id act Ht Hact Hb Ho)
    as (url_base & Hfmt & ->).
  destruct (get_fields_loop_refused _ _ _ _ _ _ _ Hfmt Href fuel [] s eq_refl Hfuel)
    as (ds & ->).
  by eexists.
Qed.

Lemma get_fields_loop_endless (url_base : string) (url_of : nat → string) :
  (∀ k, Fmt.format url_base [("offset", pretty k)] = inr (url_of k)) →
  (∀ url w, response_error (requests_get url w).1 = None ∧
            is_Some (d_items (json (requests_get url w).1)) ∧
            d_hasMore (json (requests_get url w).1) = Some true) →
  ∀ fuel offset fields (s : State),
    (get_fields_loop fuel url_base offset fields s).1 = Timeout.
Proof.
  intros Hfmt Hend. induction fuel as [|fuel IH]; intros offset fields s; [done|].
  destruct (requests_get (url_of offset) (world s)) as [r w'] eqn:Hget.
  rewrite (get_fields_loop_step _ _ _ _ _ _ _ _ (Hfmt offset) Hget).
  destruct (Hend (url_of offset) (world s)) as (Hok & [items Hitems] & Hmore).
  rewrite Hget in Hok, Hitems, Hmore. cbn in Hok, Hitems, Hmore.
  rewrite Hok, Hitems, Hmore. apply IH.
Qed.

(** X5. The loop of [get_fields] has no bound of its own: against a
    service that answers every request with a success that says
    [hasMore], it is still running after any number of pages. *)
Theorem get_fields_never_returns (e : option string) (i : option Z)
    (a : option string) (s : State)
    (obj : option string) (id : option Z) (act : option string) :
  target (job s) e i a = (obj, id, act) →
  py_eq obj "activities" = false →
  Py.brace_free bulk_base = true →
  Py.brace_free (Py.str_s obj) = true →
  (∀ url w, response_error (requests_get url w).1 = None ∧
            is_Some (d_items (json (requests_get url w).1)) ∧
            d_hasMore (json (requests_get url w).1) = Some true) →
  ∀ fuel, (get_fields fuel e i a s).1 = Timeout.
Proof.
  intros Ht Hact Hb Ho Hend fuel.
  destruct (get_fields_as_loop fuel e i a s obj id act Ht Hact Hb Ho)
    as (url_base & Hfmt & ->).
  by apply (get_fields_loop_endless _ _ Hfmt Hend).
Qed.

(** X6. For activities [get_fields] looks the activity type up in the
    static table and nothing else: without an activity type, or with one
    the table does not have, it raises [KeyError] (none of the
    specification's kinds) and has changed and requested nothing. *)
Theorem get_fields_unknown_activity (fuel : nat) e i a (s : State)
    (obj : option string) (id : option Z) (act : option string) :
  target (job s) e i a = (obj, id, act) →
  py_eq obj "activities" = true →
  (act ≫= (ACTIVITY_FIELDS !!.)) = None →
  get_fields fuel e i a s = (Raise (KeyError act), s) ∧
  error_kind (KeyError act) = None.
Proof.
  intros Ht Hact Hnone. split; [|done].
  unfold get_fields, bind, get_job. rewrite Ht, Hact.
  destruct act as [t|]; [|done]. cbn in Hnone. by rewrite Hnone.
Qed.

(** X7. A page that is a success but lacks [items], or lacks [hasMore],
    makes [get_fields] raise [KeyError] for that key; the job is as it
    was. [hasMore] is read after the items of the page were taken, also on
    a single page. *)
Theorem get_fields_missing_key (fuel : nat) e i a (s : State)
    (obj : option string) (id : option Z) (act : option string) r w' :
  target (job s) e i a = (obj, id, act) →
  py_eq obj "activities" = false →
  Py.brace_free bulk_base = true →
  Py.brace_free (Py.str_s obj) = true →
  requests_get (fields_url obj id 0) (world s) = (r, w') →
  response_error r = None →
  (d_items (json r) = None →
   ∃ s', get_fields (S fuel) e i a s = (Raise (KeyError (Some "items")), s') ∧
         job s' = job s) ∧
  (is_Some (d_items (json r)) → d_hasMore (json r) = None →
   ∃ s', get_fields (S fuel) e i a s = (Raise (KeyError (Some "hasMore")), s') ∧
         job s' = job s).
Proof.
  intros Ht Hact Hb Ho Hget Hok.
  destruct (get_fields_as_loop fuel e i a s obj id act Ht Hact Hb Ho)
    as (url_base & Hfmt & ->).
  rewrite (get_fields_loop_step _ _ _ _ _ _ _ _ (Hfmt 0) Hget), Hok.
  split.
  - intros ->. by eexists.
  - intros [items ->] ->. by eexists.
Qed.

(** ** Further properties: add_fields, add_system_fields *)

(** A loop keeps, whatever its outcome, what its body keeps. *)
Lemma for_each_keeps {A S} (I : State → Prop) (xs : list A)
    (body : A → S → M S) :
  (∀ x acc s o s', x ∈ xs → I s → body x acc s = (o, s') → I s') →
  ∀ acc s o s', I s → for_each xs body acc s = (o, s') → I s'.
Proof.
  induction xs as [|x xs IH]; intros Hbody acc s o s' HI.
  - by intros [= _ <-].
  - cbn [for_each]. unfold bind.
    destruct (body x acc s) as [o1 s1] eqn:Hx.
    apply Hbody in Hx; [|by left|done].
    destruct o1; [|by intros [= _ <-]..].
    apply IH; [|done]. intros y ????? ?. eapply Hbody; [by right|done..].
Qed.

Lemma matches_name_state (n : string) (d : dict) (s : State) o s' :
  matches_name n d s = (o, s') → s' = s.
Proof.
  unfold matches_name, bind, getitem, ret, raise.
  destruct (d_name d); by intros [= _ <-].
Qed.

Lemma add_fields_test_state (n : string) (d : dict) (s : State) o s' :
  bind get_job (λ j, if negb (py_eq (job_elq_object j) "activities")
                     then matches_either n d else matches_name n d) s = (o, s') →
  s' = s.
Proof.
  unfold bind at 1, get_job.
  destruct (negb _); [apply matches_either_state|apply matches_name_state].
Qed.

(** The resolution loop changes nothing, whatever its outcome, when the
    comparison and the reading of the candidates change nothing. *)
Lemma resolve_state (test : string → dict → M bool) (fields : M (list loc))
    (names : list string) (s s' : State) o :
  (∀ n d (s0 : State) o s1, test n d s0 = (o, s1) → s1 = s0) →
  (∀ (s0 : State) o s1, fields s0 = (o, s1) → s1 = s0) →
  resolve test fields names s = (o, s') → s' = s.
Proof.
  intros Htest Hfields. unfold resolve.
  apply (for_each_keeps (λ s0, s0 = s)); [|done].
  intros n acc s0 o0 s1 _ ->. unfold resolve_name. unfold bind at 1.
  destruct (fields s) as [o1 s2] eqn:Hf. apply Hfields in Hf as ->.
  destruct o1 as [fs| | |]; [|by intros [= _ <-]..].
  unfold bind at 1.
  destruct (for_each fs _ (acc, false) s) as [o2 s2] eqn:Hin.
  assert (s2 = s) as ->.
  { revert Hin. apply (for_each_keeps (λ s0, s0 = s)); [|done].
    intros l a s3 o3 s4 _ ->. unfold bind at 1, deref.
    destruct (heap s !! l) as [d|]; [|by intros [= _ <-]].
    unfold bind.
    destruct (test n d s) as [o4 s5] eqn:Hd. apply Htest in Hd as ->.
    destruct o4 as [[]| | |]; by intros [= _ <-]. }
  destruct o2 as [[out m]| | |]; [|by intros [= _ <-]..].
  destruct m; cbn [snd fst negb]; [by intros [= _ <-]|].
  unfold bind. destruct (lift _ s) as [o5 s5] eqn:Hl.
  assert (s5 = s) as ->.
  { revert Hl. unfold lift. destruct (Fmt.percent _ _); by intros [= _ <-]. }
  destruct o5; by intros [= _ <-].
Qed.

Lemma ret_state {A} (a : A) (s : State) o s' : ret a s = (o, s') → s' = s.
Proof. by intros [= _ <-]. Qed.

Lemma local_state {A} (var : string) (v : option A) (s : State) o s' :
  local var v s = (o, s') → s' = s.
Proof. unfold local. destruct v; by intros [= _ <-]. Qed.

(** X8. Without names [add_fields] appends the whole catalog, in the order
    fetched, and returns [True]; with an empty list of names it still
    fetches the catalog, appends nothing and returns [None]. *)
Theorem add_fields_all_or_none (fuel : nat) (s s1 : State) (catalog : list loc) :
  get_fields fuel None None None s = (Ret catalog, s1) →
  add_fields fuel None s =
    (Ret (Some true), set_job (job_extend_fields (job s) catalog) s1) ∧
  ∃ s', add_fields fuel (Some []) s = (Ret None, s') ∧
        job s' = job s ∧ heap s' = heap s1 ∧ sent s' = sent s1.
Proof.
  intros Hget.
  destruct (get_fields_frame _ _ _ _ _ _ _ Hget) as [Hjob _].
  unfold add_fields. split.
  - erewrite bind_run by (exact Hget). cbv beta.
    erewrite bind_run by (apply extend_fields_run). unfold ret.
    by rewrite Hjob.
  - eexists. split.
    + erewrite bind_run by (exact Hget). reflexivity.
    + cbn. split; [|done]. rewrite Hjob. destruct (job s).
      unfold job_extend_fields. cbn. by rewrite app_nil_r.
Qed.

(** X9. Whatever its outcome, [add_fields] keeps what [_setup_] recorded,
    the filters, and every dict of the store; and unless it returns, the
    fields of the job too: a batch that fails adds no field. *)
Theorem add_fields_keeps (fuel : nat) (field_input : option (list string))
    (s s' : State) (o : outcome (option bool)) :
  add_fields fuel field_input s = (o, s') →
  same_setup (job s) (job s') ∧
  job_filters (job s') = job_filters (job s) ∧
  store_kept (heap s) (heap s') ∧
  ((∀ r, o ≠ Ret r) → job s' = job s).
Proof.
  unfold add_fields, bind at 1.
  destruct (get_fields fuel None None None s) as [o1 s1] eqn:Hget.
  destruct (get_fields_keeps_job_aux _ _ _ _ _ _ _ Hget) as (Hjob & Hkept).
  destruct o1 as [fields| | |];
    [|intros [= <- <-]; rewrite Hjob; by repeat split..].
  destruct field_input as [names|].
  - unfold bind at 1.
    destruct (resolve _ _ names s1) as [o2 s2] eqn:Hres.
    apply resolve_state in Hres as ->;
      [|apply add_fields_test_state|intros ???; apply ret_state].
    destruct o2 as [out| | |];
      [|intros [= <- <-]; rewrite Hjob; by repeat split..].
    intros [= <- <-]. cbn. rewrite Hjob. repeat split; try done.
    intros Hr. by destruct (Hr None).
  - intros [= <- <-]. cbn. rewrite Hjob. repeat split; try done.
    intros Hr. by destruct (Hr (Some true)).
Qed.

Lemma system_test_decides (n : string) (fs : list loc) (s : State) :
  (∀ l, l ∈ fs → ∃ d, heap s !! l = Some d ∧ is_Some (d_name d)) →
  decides (matches_name n) (loc_match (heap s) true n) fs s.
Proof.
  intros Hkeys l Hl. destruct (Hkeys l Hl) as (d & Hd & Hk).
  exists d. split; [done|].
  rewrite (bool_decide_ext (loc_match (heap s) true n l) (name_match true n d))
    by (unfold loc_match; by rewrite Hd).
  by apply matches_name_run.
Qed.

(** The table [add_system_fields] takes for a job. *)
Lemma add_system_fields_table (field_input : option (list string))
    (table : list loc) (s : State) :
  (job_elq_object (job s) = Some "contacts" ∧ table = CONTACT_SYSTEM_FIELDS) ∨
  (job_elq_object (job s) = Some "accounts" ∧ table = ACCOUNT_SYSTEM_FIELDS) →
  add_system_fields field_input s =
  match field_input with
  | None => (Ret (Some true), set_job (job_extend_fields (job s) table) s)
  | Some names =>
      bind (resolve matches_name (ret table) names)
           (λ out, bind (extend_fields out) (λ _, ret None)) s
  end.
Proof.
  intros [[He ->]|[He ->]]; unfold add_system_fields, bind at 1, get_job;
    rewrite He; cbn [py_eq String.eqb Ascii.eqb Bool.eqb];
    by destruct field_input.
Qed.

(** X10. On a contacts or accounts job [add_system_fields] works on the
    static table of that kind and requests nothing: without names it
    returns [True] and [job_fields] is the list of the call followed by the
    whole table; with names it returns [None] and [job_fields] is the list
    of the call followed, for each name in turn, by the entries whose [name]
    is that string (the internal name plays no part), in table order. What
    the job gets are references to the dicts of the table; the rest of the
    job, the store and the requests made are as they were. *)
Theorem add_system_fields_resolves (names : list string) (table : list loc)
    (s : State) :
  (job_elq_object (job s) = Some "contacts" ∧ table = CONTACT_SYSTEM_FIELDS) ∨
  (job_elq_object (job s) = Some "accounts" ∧ table = ACCOUNT_SYSTEM_FIELDS) →
  add_system_fields None s =
    (Ret (Some true),
     mkBulk (mkJob (job_filters (job s)) (job_fields (job s) ++ table)
                   (job_type (job s)) (job_elq_object (job s))
                   (job_obj_id (job s)) (job_act_type (job s))
                   (job_options (job s)))
            (heap s) (world s) (sent s)) ∧
  ((∀ l, l ∈ table → ∃ d, heap s !! l = Some d ∧ is_Some (d_name d)) →
   (∀ n, n ∈ names → Exists (loc_match (heap s) true n) table) →
   add_system_fields (Some names) s =
     (Ret None,
      mkBulk (mkJob (job_filters (job s))
                    (job_fields (job s) ++
                     flat_map (λ n, filter (loc_match (heap s) true n) table) names)
                    (job_type (job s)) (job_elq_object (job s))
                    (job_obj_id (job s)) (job_act_type (job s))
                    (job_options (job s)))
             (heap s) (world s) (sent s))).
Proof.
  intros Htable. split.
  - by rewrite (add_system_fields_table None table).
  - intros Hkeys Hex. rewrite (add_system_fields_table (Some names) table) by done.
    erewrite bind_run; last first.
    { apply (resolve_found _ (loc_match (heap s) true) _ table); [done| |done].
      intros n _. by apply system_test_decides. }
    reflexivity.
Qed.

(** X11. [add_system_fields] at the first name that no entry of the table
    has: the exception names that name, and nothing has changed. *)
Theorem add_system_fields_unmatched (pre post : list string) (n : string)
    (table : list loc) (s : State) :
  (job_elq_object (job s) = Some "contacts" ∧ table = CONTACT_SYSTEM_FIELDS) ∨
  (job_elq_object (job s) = Some "accounts" ∧ table = ACCOUNT_SYSTEM_FIELDS) →
  (∀ l, l ∈ table → ∃ d, heap s !! l = Some d ∧ is_Some (d_name d)) →
  (∀ m, m ∈ pre → Exists (loc_match (heap s) true m) table) →
  ¬ Exists (loc_match (heap s) true n) table →
  add_system_fields (Some (pre ++ n :: post)) s =
    (Raise (Exception ("field not found: " +:+ n)), s) ∧
  error_kind (Exception ("field not found: " +:+ n)) = Some FieldNotFoundError.
Proof.
  intros Htable Hkeys Hex Hn. split; [|apply error_kind_not_found].
  rewrite (add_system_fields_table (Some (pre ++ n :: post)) table) by done.
  erewrite bind_run_raise; [done|].
  apply (resolve_missing _ (loc_match (heap s) true) _ table); [done| |done..].
  intros m _. by apply system_test_decides.
Qed.

(** X12. Whatever its outcome, [add_system_fields] requests nothing and
    leaves the store as it is; it keeps what [_setup_] recorded and the
    filters, and unless it returns, the job as a whole. *)
Theorem add_system_fields_keeps (field_input : option (list string))
    (s s' : State) (o : outcome (option bool)) :
  add_system_fields field_input s = (o, s') →
  heap s' = heap s ∧ world s' = world s ∧ sent s' = sent s ∧
  same_setup (job s) (job s') ∧
  job_filters (job s') = job_filters (job s) ∧
  ((∀ r, o ≠ Ret r) → s' = s).
Proof.
  unfold add_system_fields, bind at 1, get_job.
  set (fieldset := if py_eq _ "contacts" then _ else _).
  destruct field_input as [names|].
  - unfold bind at 1.
    destruct (resolve _ _ names s) as [o2 s2] eqn:Hres.
    apply resolve_state in Hres as ->;
      [|apply matches_name_state|intros ???; apply local_state].
    destruct o2 as [out| | |]; [|intros [= <- <-]; by repeat split..].
    intros [= <- <-]. cbn. repeat split; try done.
    intros Hr. by destruct (Hr None).
  - unfold bind at 1, local. destruct fieldset as [fs|].
    + intros [= <- <-]. cbn. repeat split; try done.
      intros Hr. by destruct (Hr (Some true)).
    + intros [= <- <-]. by repeat split.
Qed.

(** ** Further properties: add_linked_fields *)

(** X13. [add_linked_fields] cannot link activities: it asks [get_fields]
    for the activities table without an activity type, so it always
    raises [KeyError(None)], and has changed and requested nothing. *)
Theorem add_linked_fields_activities (fuel : nat) (names : list string)
    (s : State) :
  add_linked_fields fuel "activities" names s = (Raise (KeyError None), s) ∧
  error_kind (KeyError None) = None.
Proof.
  split; [|done].
  assert (get_fields fuel (Some "activities") None None s =
          (Raise (KeyError None), s)) as Hget by done.
  unfold add_linked_fields. by erewrite bind_run_raise.
Qed.

(** X14. [add_linked_fields] at the first name that no field of the linked
    catalog has, as internal name or as display name: the exception names
    that name, and the job is as it was before the call. The internal name
    counts whatever the kind of the job. *)
Theorem add_linked_fields_unmatched (fuel : nat) (lnk_obj : string)
    (pre post : list string) (n : string) (s s1 : State) (catalog : list loc) :
  get_fields fuel (Some lnk_obj) None None s = (Ret catalog, s1) →
  (∀ l, l ∈ catalog → ∃ d, heap s1 !! l = Some d ∧ has_keys false d) →
  (∀ m, m ∈ pre → Exists (loc_match (heap s1) false m) catalog) →
  ¬ Exists (loc_match (heap s1) false n) catalog →
  add_linked_fields fuel lnk_obj (pre ++ n :: post) s =
    (Raise (Exception ("field not found: " +:+ n)), s1) ∧
  error_kind (Exception ("field not found: " +:+ n)) = Some FieldNotFoundError ∧
  job s1 = job s.
Proof.
  intros Hget Hkeys Hex Hn.
  destruct (get_fields_frame _ _ _ _ _ _ _ Hget) as [Hjob _].
  split; [|split; [apply error_kind_not_found|done]].
  unfold add_linked_fields. erewrite bind_run by (exact Hget). cbv beta.
  erewrite bind_run_raise; [done|].
  apply (resolve_missing _ (loc_match (heap s1) false) _ catalog); [done| |done..].
  intros m _ l Hl. destruct (Hkeys l Hl) as (d & Hd & Hk).
  exists d. split; [done|].
  rewrite (bool_decide_ext (loc_match (heap s1) false m l) (name_match false m d))
    by (unfold loc_match; by rewrite Hd).
  by apply matches_either_run.
Qed.

(** The body of the rewriting loop, whatever its outcome. *)
Lemma rewrite_statement_frame (lnk_obj : string) (l : loc) (s s' : State)
    (o : outcome unit) :
  rewrite_statement lnk_obj l s = (o, s') →
  job s' = job s ∧ world s' = world s ∧ sent s' = sent s ∧
  length (heap s') = length (heap s) ∧
  (∀ l', l' ≠ l → heap s' !! l' = heap s !! l').
Proof.
  assert (∀ d new, store l (set_statement d new) s = (o, s') →
            job s' = job s ∧ world s' = world s ∧ sent s' = sent s ∧
            length (heap s') = length (heap s) ∧
            (∀ l', l' ≠ l → heap s' !! l' = heap s !! l')) as Hstore.
  { intros d new [= _ <-]. cbn. repeat split.
    - apply length_insert.
    - intros l' ?. by apply list_lookup_insert_ne. }
  unfold rewrite_statement, bind, get_job, deref, getitem.
  destruct (String.eqb lnk_obj "contacts");
    [destruct (py_eq (job_elq_object (job s)) "customobjects");
     [|destruct (py_eq (job_elq_object (job s)) "events")]
    |destruct (String.eqb lnk_obj "accounts")];
    try (by intros [= _ <-]);
    (destruct (heap s !! l) as [d|]; [|by intros [= _ <-]]);
    (destruct (d_statement d) as [st|]; [|by intros [= _ <-]]);
    rewrite ?percent_customobject, ?percent_event; cbn; apply Hstore.
Qed.

Lemma rewrite_loop_frame (lnk_obj : string) (out : list loc) (s s' : State)
    (o : outcome unit) :
  for_each out (λ field _, rewrite_statement lnk_obj field) tt s = (o, s') →
  job s' = job s ∧ world s' = world s ∧ sent s' = sent s ∧
  length (heap s') = length (heap s) ∧
  (∀ l, l ∉ out → heap s' !! l = heap s !! l).
Proof.
  apply (for_each_keeps
           (λ s0, job s0 = job s ∧ world s0 = world s ∧ sent s0 = sent s ∧
                  length (heap s0) = length (heap s) ∧
                  (∀ l, l ∉ out → heap s0 !! l = heap s !! l))); [|done].
  intros l acc s0 o0 s1 Hl (Hj&Hw&Hs&Hlen&Hne) Hrun.
  destruct (rewrite_statement_frame _ _ _ _ _ Hrun) as (Hj1&Hw1&Hs1&Hlen1&Hne1).
  split; [congruence|]. split; [congruence|]. split; [congruence|].
  split; [congruence|]. intros l' Hl'. rewrite Hne1, Hne; [done..|].
  intros ->. done.
Qed.

(** [add_linked_fields] after its call of [get_fields]. *)
Lemma add_linked_fields_after_fetch (fuel : nat) (lnk_obj : string)
    (names : list string) (s s' : State) (o : outcome unit) :
  add_linked_fields fuel lnk_obj names s = (o, s') →
  ∃ o1 s1,
    get_fields fuel (Some lnk_obj) None None s = (o1, s1) ∧
    world s' = world s1 ∧ sent s' = sent s1 ∧
    length (heap s') = length (heap s1) ∧
    (∀ l, (l < length (heap s))%nat → heap s' !! l = heap s1 !! l) ∧
    job_filters (job s') = job_filters (job s1) ∧
    same_setup (job s1) (job s') ∧
    ((∀ r, o ≠ Ret r) → job s' = job s1).
Proof.
  unfold add_linked_fields, bind at 1.
  destruct (get_fields fuel (Some lnk_obj) None None s) as [o1 s1] eqn:Hget.
  intros Hrun. exists o1, s1. split; [done|]. revert Hrun.
  destruct o1 as [catalog| | |]; [|intros [= <- <-]; by repeat split..].
  destruct (get_fields_linked_fresh _ _ _ _ _ Hget) as (Hjob & ds & Hheap & ->).
  unfold bind at 1.
  destruct (resolve _ _ names s1) as [o2 s2] eqn:Hres.
  assert (s2 = s1) as ->
    by (eapply resolve_state;
        [apply matches_either_state|intros ???; apply ret_state|exact Hres]).
  destruct o2 as [out| | |]; [|intros [= <- <-]; by repeat split..].
  apply resolve_ret in Hres as [_ Hout]; [|apply matches_either_state].
  unfold bind at 1.
  destruct (for_each out _ tt s1) as [o3 s3] eqn:Hloop.
  destruct (rewrite_loop_frame _ _ _ _ _ Hloop) as (Hj&Hw&Hs&Hlen&Hne).
  assert (∀ l, (l < length (heap s))%nat → heap s3 !! l = heap s1 !! l) as Hold.
  { intros l Hl. apply Hne. intros Hin%Hout%elem_of_seq. lia. }
  destruct o3 as [[]| | |].
  - intros [= <- <-]. cbn. rewrite Hj. repeat split; try done.
    intros Hr. by destruct (Hr tt).
  - intros [= <- <-]. rewrite Hj. by repeat split.
  - intros [= <- <-]. rewrite Hj. by repeat split.
  - intros [= <- <-]. rewrite Hj. by repeat split.
Qed.

(** X15. Whatever its outcome, [add_linked_fields] keeps what [_setup_]
    recorded, the filters, and every dict that was in the store before
    the call (so the fields already in the job and the static tables);
    and unless it returns, the job as a whole. *)
Theorem add_linked_fields_keeps (fuel : nat) (lnk_obj : string)
    (names : list string) (s s' : State) (o : outcome unit) :
  add_linked_fields fuel lnk_obj names s = (o, s') →
  same_setup (job s) (job s') ∧
  job_filters (job s') = job_filters (job s) ∧
  store_kept (heap s) (heap s') ∧
  ((∀ r, o ≠ Ret r) → job s' = job s).
Proof.
  intros Hrun.
  destruct (add_linked_fields_after_fetch _ _ _ _ _ _ Hrun)
    as (o1 & s1 & Hget & _ & _ & _ & Hold & Hf & Hsetup & Hfail).
  destruct (get_fields_keeps_job_aux _ _ _ _ _ _ _ Hget) as (Hjob & Hkept).
  rewrite Hjob in Hf, Hsetup, Hfail. split; [done|]. split; [done|].
  split; [|done]. intros l d Hl. rewrite Hold; [by apply Hkept|].
  by eapply lookup_lt_Some.
Qed.

(** X16. [add_linked_fields] passes no parent ID to [get_fields]: linking
    customobjects or events, the first request is for the fields of the
    parent [None], whatever the parent ID of the job is. *)
Theorem add_linked_fields_no_parent_id (fuel : nat) (lnk_obj : string)
    (names : list string) (s s' : State) (o : outcome unit) :
  lnk_obj ∈ OBJECT_REQ_ID →
  Py.brace_free bulk_base = true →
  add_linked_fields (S fuel) lnk_obj names s = (o, s') →
  ∃ urls,
    sent s' =
    sent s ++ (bulk_base +:+ "/" +:+ lnk_obj +:+
               "/None/fields?limit=1000&offset=0") :: urls.
Proof.
  intros Hin Hb Hrun.
  destruct (add_linked_fields_after_fetch _ _ _ _ _ _ Hrun)
    as (o1 & s1 & Hget & _ & -> & _).
  assert (py_eq (Some lnk_obj) "activities" = false ∧
          Py.brace_free lnk_obj = true ∧
          py_in (Some lnk_obj) OBJECT_REQ_ID = true) as (Hact & Ho & Hreq).
  { revert Hin. unfold OBJECT_REQ_ID. rewrite !elem_of_cons, elem_of_nil.
    by intros [->|[->|[]]]. }
  destruct (get_fields_as_loop (S fuel) (Some lnk_obj) None None s
              (Some lnk_obj) None None eq_refl Hact Hb Ho)
    as (url_base & Hfmt & Heq).
  rewrite Heq in Hget.
  destruct (requests_get (fields_url (Some lnk_obj) None 0) (world s))
    as [r w'] eqn:Hreq0.
  rewrite (get_fields_loop_step _ _ _ _ _ _ _ _ (Hfmt 0) Hreq0) in Hget.
  assert (fields_url (Some lnk_obj) None 0 =
          bulk_base +:+ "/" +:+ lnk_obj +:+ "/None/fields?limit=1000&offset=0")
    as Hurl.
  { unfold fields_url. rewrite Hreq. cbn [Py.str_s Py.str].
    by string_norm. }
  rewrite <- Hurl.
  destruct (response_error r); [injection Hget as _ <-; by exists []|].
  destruct (d_items (json r)); [|injection Hget as _ <-; by exists []].
  destruct (d_hasMore (json r)) as [[]|]; cbn in Hget;
    [|injection Hget as _ <-; by exists []..].
  apply get_fields_loop_sent in Hget as (urls & ->). cbn.
  exists urls. by rewrite <- app_assoc.
Qed.

Lemma replace_go_absent (old new s : string) :
  absent old s = true → Py.replace_go old new 0 s = s.
Proof.
  induction s as [|c s IH]; [done|]. cbn [absent Py.replace_go].
  intros [Hp Hs]%andb_true_iff. apply negb_true_iff in Hp.
  by rewrite Hp, IH.
Qed.

(** X17. The rewriting of [add_linked_fields] on a field whose statement
    does not hold the token of the rule ([Contact.] when contacts are
    linked, [Account.] when accounts are): the statement stays as it was
    fetched, and nothing else changes either. *)
Theorem rewrite_statement_token_absent (lnk_obj : string) (l : loc) (d : dict)
    (st : string) (s : State) :
  heap s !! l = Some d →
  d_statement d = Some st →
  (lnk_obj = "contacts" → absent "Contact." st = true) →
  (lnk_obj = "accounts" → absent "Account." st = true) →
  rewrite_statement lnk_obj l s = (Ret tt, s).
Proof.
  intros Hd Hst Hc Ha.
  assert (∀ old new, absent old st = true →
            store l (set_statement d (Py.replace_go old new 0 st)) s =
            (Ret tt, s)) as Hstore.
  { intros old new Habs. rewrite replace_go_absent by done.
    rewrite set_statement_same by done. unfold store.
    rewrite list_insert_id by done. by destruct s. }
  unfold rewrite_statement, bind, get_job, deref, getitem.
  destruct (String.eqb_spec lnk_obj "contacts") as [Hl|_].
  - destruct (py_eq (job_elq_object (job s)) "customobjects");
      [|destruct (py_eq (job_elq_object (job s)) "events"); [|done]];
      rewrite Hd, Hst, ?percent_customobject, ?percent_event; cbn;
      apply Hstore; auto.
  - destruct (String.eqb_spec lnk_obj "accounts") as [Hl|_]; [|done].
    rewrite Hd, Hst. cbn. apply Hstore; auto.
Qed.

(** ** Further properties: add_leadscore_fields, filter_exists_list *)

Lemma format_model_url (id : string) :
  Fmt.format "/contacts/scoring/models/{0}" [("0", id)] =
  inr ("/contacts/scoring/models/" +:+ id).
Proof. cbn. by rewrite append_empty_r. Qed.

(** [add_leadscore_fields] by ID and by name, after the request. *)
Lemma add_leadscore_fields_by_id (model_id : Z) (name : option string)
    (s : State) r w' :
  requests_get (model_url model_id) (world s) = (r, w') →
  add_leadscore_fields (Some model_id) name s =
  let s1 := mkBulk (job s) (heap s) w' (sent s ++ [model_url model_id]) in
  match response_error r with
  | Some e => (Raise e, s1)
  | None =>
      match d_fields (json r) with
      | Some fs =>
          (Ret tt,
           mkBulk (job_extend_fields (job s) (seq (length (heap s)) (length fs)))
                  (heap s ++ fs) w' (sent s ++ [model_url model_id]))
      | None => (Raise (KeyError (Some "fields")), s1)
      end
  end.
Proof.
  intros Hget. unfold add_leadscore_fields.
  rewrite format_model_url. unfold bind at 1, lift, ret at 1.
  assert (bulk_base +:+ "/contacts/scoring/models/" +:+ pretty model_id =
          model_url model_id) as -> by done.
  erewrite bind_run by (by apply get_run). cbv beta.
  unfold bind at 1, _elq_error_.
  destruct (response_error r); [done|]. unfold ret at 1.
  unfold bind at 1, getitem. by destruct (d_fields (json r)).
Qed.

Lemma add_leadscore_fields_by_name' (name : string) (s : State) r w' :
  requests_get (model_search_url name) (world s) = (r, w') →
  add_leadscore_fields None (Some name) s =
  let s1 := mkBulk (job s) (heap s) w' (sent s ++ [model_search_url name]) in
  match response_error r with
  | Some e => (Raise e, s1)
  | None =>
      match d_items (json r) with
      | Some (model :: _) =>
          match d_fields model with
          | Some fs =>
              (Ret tt,
               mkBulk (job_extend_fields (job s)
                         (seq (length (heap s)) (length fs)))
                      (heap s ++ fs) w' (sent s ++ [model_search_url name]))
          | None => (Raise (KeyError (Some "fields")), s1)
          end
      | Some [] => (Raise IndexError, s1)
      | None => (Raise (KeyError (Some "items")), s1)
      end
  end.
Proof.
  intros Hget. unfold add_leadscore_fields.
  rewrite format_model_search, replace_space_star.
  unfold bind at 1, lift, ret at 1.
  assert (bulk_base +:+ "/contacts/scoring/models?q=" +:+ Py.dquote +:+
          "name=" +:+ Py.spaces_to_stars name +:+ Py.dquote =
          model_search_url name) as -> by done.
  erewrite bind_run by (by apply get_run). cbv beta.
  unfold bind at 1, _elq_error_.
  destruct (response_error r); [done|]. unfold ret at 1.
  unfold bind at 1, getitem.
  destruct (d_items (json r)) as [[|model rest]|]; [done| |done].
  unfold ret at 1, first. unfold bind at 1, ret at 1. unfold bind at 1.
  by destruct (d_fields model).
Qed.

(** X18. [add_leadscore_fields] returns exactly when the lookup of the
    model (by ID, or by name with a first item; always among the contacts'
    models, whatever the kind of the job) is answered with a success and
    the model has [fields]. The fields of that model are then the new dicts
    at the end of the store, in order and as they came, and [job_fields] is
    the list of the call followed by the references to them, in the same
    order; the rest of the job is as it was. By name only the first model
    found is used. *)
Theorem add_leadscore_fields_appends (model_id : option Z)
    (name : option string) (s s' : State) :
  add_leadscore_fields model_id name s = (Ret tt, s') ↔
  ∃ url w' model fs,
    resolved_model s model_id name url w' model ∧
    d_fields model = Some fs ∧
    s' = mkBulk (mkJob (job_filters (job s))
                       (job_fields (job s) ++ seq (length (heap s)) (length fs))
                       (job_type (job s)) (job_elq_object (job s))
                       (job_obj_id (job s)) (job_act_type (job s))
                       (job_options (job s)))
                (heap s ++ fs) w' (sent s ++ [url]).
Proof.
  split.
  - destruct model_id as [id|]; [|destruct name as [nm|]; [|done]].
    + destruct (requests_get (model_url id) (world s)) as [r w'] eqn:Hget.
      rewrite (add_leadscore_fields_by_id _ _ _ _ _ Hget). cbn zeta.
      destruct (response_error r) eqn:Hok; [done|].
      destruct (d_fields (json r)) as [fs|] eqn:Hfs; [|done].
      intros [= <-]. exists (model_url id), w', (json r), fs.
      split; [by apply model_by_id|done].
    + destruct (requests_get (model_search_url nm) (world s)) as [r w'] eqn:Hget.
      rewrite (add_leadscore_fields_by_name' _ _ _ _ Hget). cbn zeta.
      destruct (response_error r) eqn:Hok; [done|].
      destruct (d_items (json r)) as [[|model rest]|] eqn:Hitems; [done| |done].
      destruct (d_fields model) as [fs|] eqn:Hfs; [|done].
      intros [= <-]. exists (model_search_url nm), w', model, fs.
      split; [by eapply model_by_name|done].
  - intros (url & w' & model & fs & Hres & Hfs & ->).
    destruct Hres as [id nm r w1 Hget Hok|nm r w1 m rest Hget Hok Hitems].
    + rewrite (add_leadscore_fields_by_id _ _ _ _ _ Hget). cbn zeta.
      by rewrite Hok, Hfs.
    + rewrite (add_leadscore_fields_by_name' _ _ _ _ Hget). cbn zeta.
      by rewrite Hok, Hitems, Hfs.
Qed.

(** X19. Whatever its outcome, [add_leadscore_fields] makes at most one
    request, keeps what [_setup_] recorded, the filters, and every dict of
    the store; and unless it returns, the job as a whole. *)
Theorem add_leadscore_fields_keeps (model_id : option Z) (name : option string)
    (s s' : State) (o : outcome unit) :
  add_leadscore_fields model_id name s = (o, s') →
  same_setup (job s) (job s') ∧
  job_filters (job s') = job_filters (job s) ∧
  store_kept (heap s) (heap s') ∧
  (sent s' = sent s ∨ ∃ url, sent s' = sent s ++ [url]) ∧
  ((∀ r, o ≠ Ret r) → job s' = job s).
Proof.
  assert (store_kept (heap s) (heap s)) as Hsame by (by intros ??).
  assert (∀ fs, store_kept (heap s) (heap s ++ fs)) as Hgrow
    by (intros fs l d ?; by apply lookup_app_l_Some).
  destruct model_id as [id|]; [|destruct name as [nm|]].
  - destruct (requests_get (model_url id) (world s)) as [r w'] eqn:Hget.
    rewrite (add_leadscore_fields_by_id _ _ _ _ _ Hget). cbn zeta.
    destruct (response_error r); [intros [= <- <-]; repeat split; eauto|].
    destruct (d_fields (json r)); intros [= <- <-]; cbn;
      repeat split; eauto.
    intros Hr. by destruct (Hr tt).
  - destruct (requests_get (model_search_url nm) (world s)) as [r w'] eqn:Hget.
    rewrite (add_leadscore_fields_by_name' _ _ _ _ Hget). cbn zeta.
    destruct (response_error r); [intros [= <- <-]; repeat split; eauto|].
    destruct (d_items (json r)) as [[|model rest]|];
      [intros [= <- <-]; repeat split; eauto| |intros [= <- <-]; repeat split; eauto].
    destruct (d_fields model); intros [= <- <-]; cbn; repeat split; eauto.
    intros Hr. by destruct (Hr tt).
  - intros [= <- <-]. repeat split; eauto.
Qed.

(** [filter_exists_list] by ID and by name, after the request. *)
Lemma filter_exists_list_run (list_id : option Z) (name : option string)
    (s : State) :
  match list_id, name with
  | None, None =>
      filter_exists_list list_id name s =
      (Raise (Exception "list_id or name required"), s)
  | _, _ =>
      ∃ url r w',
        requests_get url (world s) = (r, w') ∧
        url = match list_id with
              | Some id => list_url (job s) id
              | None => list_search_url (job s) (default EmptyString name)
              end ∧
        let s1 := mkBulk (job s) (heap s) w' (sent s ++ [url]) in
        match response_error r with
        | Some e => filter_exists_list list_id name s = (Raise e, s1)
        | None =>
            (∃ e, filter_exists_list list_id name s = (Raise e, s1) ∧
                  error_kind e = None) ∨
            ∃ st, filter_exists_list list_id name s =
                  (Ret tt, set_job (job_append_filter (job s)
                                      (" EXISTS('" +:+ st +:+ "') ")) s1)
        end
  end.
Proof.
  destruct list_id as [id|]; [|destruct name as [nm|]; [|done]].
  - destruct (requests_get (list_url (job s) id) (world s)) as [r w'] eqn:Hget.
    exists (list_url (job s) id), r, w'. split; [done|]. split; [done|].
    cbn zeta. destruct (response_error r) as [e|] eqn:Hok.
    + unfold filter_exists_list, bind at 1, get_job.
      rewrite format_list_url. unfold bind at 1, lift, ret at 1.
      erewrite bind_run by (by apply get_run). cbv beta.
      unfold bind at 1, _elq_error_. by rewrite Hok.
    + rewrite (filter_exists_list_by_id _ _ _ _ _ Hget Hok). cbn zeta.
      destruct (d_statement (json r)); [right; by eexists|left; by eexists].
  - destruct (requests_get (list_search_url (job s) nm) (world s))
      as [r w'] eqn:Hget.
    exists (list_search_url (job s) nm), r, w'. split; [done|]. split; [done|].
    cbn zeta. destruct (response_error r) as [e|] eqn:Hok.
    + unfold filter_exists_list, bind at 1, get_job.
      rewrite format_list_search, replace_space_star.
      unfold bind at 1, lift, ret at 1.
      erewrite bind_run by (by apply get_run). cbv beta.
      unfold bind at 1, _elq_error_. by rewrite Hok.
    + rewrite (filter_exists_list_by_name _ _ _ _ Hget Hok). cbn zeta.
      destruct (d_items (json r)) as [[|lst rest]|];
        [left; by eexists| |left; by eexists].
      destruct (d_statement lst); [right; by eexists|left; by eexists].
Qed.

(** X20. Whatever its outcome, [filter_exists_list] leaves the store and
    the fields of the job alone, keeps what [_setup_] recorded, and makes
    one request, or none when it has neither argument; unless it returns,
    the job is as it was, and when it returns the filters have grown by
    one at the end. *)
Theorem filter_exists_list_keeps (list_id : option Z) (name : option string)
    (s s' : State) (o : outcome unit) :
  filter_exists_list list_id name s = (o, s') →
  heap s' = heap s ∧
  job_fields (job s') = job_fields (job s) ∧
  same_setup (job s) (job s') ∧
  (sent s' = sent s ∨ ∃ url, sent s' = sent s ++ [url]) ∧
  (o ≠ Ret tt → job s' = job s) ∧
  (o = Ret tt → ∃ f, job_filters (job s') = job_filters (job s) ++ [f]).
Proof.
  pose proof (filter_exists_list_run list_id name s) as Hrun.
  destruct list_id as [id|]; [|destruct name as [nm|]];
    try (rewrite Hrun; intros [= <- <-]; by repeat split; eauto);
    destruct Hrun as (url & r & w' & _ & _ & Hrun); cbn zeta in Hrun;
    (destruct (response_error r);
     [rewrite Hrun; intros [= <- <-]; cbn; by repeat split; eauto|]);
    destruct Hrun as [(e & -> & _)|(st & ->)]; intros [= <- <-]; cbn;
    repeat split; eauto; done.
Qed.

(** X21. A lookup of [filter_exists_list] that the service refuses: the
    error of the response is raised as it is and the job is as it was,
    by ID and by name alike. *)
Theorem filter_exists_list_refused (list_id : option Z) (name : string)
    (s : State) r w' (e : exn) :
  requests_get (match list_id with
                | Some id => list_url (job s) id
                | None => list_search_url (job s) name
                end) (world s) = (r, w') →
  response_error r = Some e →
  ∃ s', filter_exists_list list_id (Some name) s = (Raise e, s') ∧
        job s' = job s.
Proof.
  intros Hget Herr.
  pose proof (filter_exists_list_run list_id (Some name) s) as Hrun.
  destruct list_id as [id|];
    destruct Hrun as (url & r1 & w1 & Hget1 & -> & Hrun); cbn in Hget1;
    rewrite Hget in Hget1; injection Hget1 as <- <-;
    cbn zeta in Hrun; rewrite Herr in Hrun; rewrite Hrun; by eexists.
Qed.

Lemma spaces_to_stars_idem (n : string) :
  Py.spaces_to_stars (Py.spaces_to_stars n) = Py.spaces_to_stars n.
Proof.
  induction n as [|c n IH]; [done|]. cbn [Py.spaces_to_stars]. rewrite IH.
  destruct (Ascii.eqb c " ") eqn:Hc; [done|]. by rewrite Hc.
Qed.

(** X22. In a lookup by name, a star in the name and a space in the name
    are the same: the name and the name with its spaces made stars give
    the same request and the same outcome, for lists and for models. *)
Theorem lookup_by_name_star_is_space (name : string) (s : State) :
  filter_exists_list None (Some (Py.replace name " " "*")) s =
    filter_exists_list None (Some name) s ∧
  add_leadscore_fields None (Some (Py.replace name " " "*")) s =
    add_leadscore_fields None (Some name) s.
Proof.
  unfold filter_exists_list, add_leadscore_fields.
  by rewrite !replace_space_star, spaces_to_stars_idem.
Qed.

(** X23. [_setup_] takes any activity type: for activities with a type
    that the static table does not have, [exports] returns, and every
    later [add_fields] raises [KeyError] for that type, leaving the job as
    [exports] made it. *)
Theorem exports_unknown_activity_type (t : string) (obj_id : option Z)
    (s : State) :
  ACTIVITY_FIELDS !! t = None →
  ∃ s1,
    exports "activities" obj_id (Some t) s = (Ret tt, s1) ∧
    job_act_type (job s1) = Some t ∧
    ∀ fuel field_input,
      add_fields fuel field_input s1 = (Raise (KeyError (Some t)), s1).
Proof.
  intros Hnone. eexists. split; [reflexivity|]. split; [done|].
  intros fuel field_input.
  unfold add_fields, bind at 1, get_fields, bind at 1, get_job. cbn.
  by rewrite Hnone.
Qed.

(** [add_fields] after its call of [get_fields] requests nothing more. *)
Lemma add_fields_after_fetch (fuel : nat) (field_input : option (list string))
    (s s' : State) (o : outcome (option bool)) :
  add_fields fuel field_input s = (o, s') →
  ∃ o1 s1, get_fields fuel None None None s = (o1, s1) ∧ sent s' = sent s1.
Proof.
  unfold add_fields, bind at 1.
  destruct (get_fields fuel None None None s) as [o1 s1] eqn:Hget.
  intros Hrun. exists o1, s1. split; [done|]. revert Hrun.
  destruct o1 as [fields| | |]; [|by intros [= _ <-]..].
  destruct field_input as [names|]; [|by intros [= _ <-]].
  unfold bind at 1.
  destruct (resolve _ _ names s1) as [o2 s2] eqn:Hres.
  apply resolve_state in Hres as ->;
    [|apply add_fields_test_state|intros ???; apply ret_state].
  destruct o2; by intros [= _ <-].
Qed.

(** X24. No operation checks that the job was set up. On a blank job (a
    new one, or any job after [reset]) [add_fields] asks for the fields of
    the object kind [None], and [filter_exists_list] for a list of it. *)
Theorem blank_job_requests_None (fuel : nat)
    (field_input : option (list string)) (list_id : Z) (s : State) :
  Py.brace_free bulk_base = true →
  ∃ s0,
    reset s = (Ret tt, s0) ∧ job s0 = BLANK_JOB ∧
    (∀ o s', add_fields (S fuel) field_input s0 = (o, s') →
             ∃ urls, sent s' =
                     sent s ++ (bulk_base +:+ "/None/fields?limit=1000&offset=0")
                            :: urls) ∧
    (∀ o s', filter_exists_list (Some list_id) None s0 = (o, s') →
             sent s' = sent s ++ [bulk_base +:+ "/None/lists/" +:+ pretty list_id]).
Proof.
  intros Hb. eexists. split; [reflexivity|]. split; [done|]. split.
  - intros o s' (o1 & s1 & Hget & ->)%add_fields_after_fetch.
    destruct (get_fields_as_loop (S fuel) None None None
                (set_job BLANK_JOB s) None None None eq_refl eq_refl Hb eq_refl)
      as (url_base & Hfmt & Heq).
    rewrite Heq in Hget.
    destruct (requests_get (fields_url None None 0) (world s))
      as [r w'] eqn:Hreq0.
    rewrite (get_fields_loop_step fuel url_base _ 0 [] (set_job BLANK_JOB s)
               r w' (Hfmt 0) Hreq0) in Hget.
    assert (fields_url None None 0 =
            bulk_base +:+ "/None/fields?limit=1000&offset=0") as Hurl
      by (unfold fields_url; cbn [py_in Py.str_s]; by string_norm).
    rewrite <- Hurl.
    destruct (response_error r); [injection Hget as _ <-; by exists []|].
    destruct (d_items (json r)); [|injection Hget as _ <-; by exists []].
    destruct (d_hasMore (json r)) as [[]|]; cbn in Hget;
      [|injection Hget as _ <-; by exists []..].
    apply get_fields_loop_sent in Hget as (urls & ->). cbn.
    exists urls. by rewrite <- app_assoc.
  - intros o s'.
    destruct (filter_exists_list_run (Some list_id) None (set_job BLANK_JOB s))
      as (url & r & w' & _ & -> & Hrun). cbn zeta in Hrun.
    assert (list_url BLANK_JOB list_id =
            bulk_base +:+ "/None/lists/" +:+ pretty list_id) as Hurl
      by (unfold list_url; cbn [job_elq_object BLANK_JOB Py.str_s];
          by string_norm).
    cbn [job set_job] in Hrun. rewrite Hurl in Hrun.
    destruct (response_error r);
      [rewrite Hrun; by intros [= _ <-]|].
    destruct Hrun as [(e & -> & _)|(st & ->)]; by intros [= _ <-].
Qed.

End Properties.

(** * The examples of the specification, and the inputs that separate it
      from the code *)

Module Run.

Import Example.

(** C1, on a customobjects job with parent 5. Resolved by one name, the
    field of the specification's example gets the statement the rule
    gives. Resolved by two names (its display name and its internal name)
    the same dict is in [fields_output] twice, the loop rewrites it once
    per entry, and since the new prefix ends in the token it replaces the
    second pass prefixes the statement again. *)
Theorem add_linked_fields_same_field_twice :
  let once := add_linked_fields (server contact_fields) check base ∅ 1 "contacts"
                ["Email Address"] (start customobjects_job) in
  let twice := add_linked_fields (server contact_fields) check base ∅ 1 "contacts"
                 ["Email Address"; "C_EmailAddress"] (start customobjects_job) in
  once.1 = Ret tt ∧
  job_fields (job once.2) = [0] ∧
  d_statement <$> heap once.2 !! 0 =
    Some (Some "CustomObject[5].Contact.Field[Email Address]") ∧
  twice.1 = Ret tt ∧
  job_fields (job twice.2) = [0; 0] ∧
  d_statement <$> heap twice.2 !! 0 =
    Some (Some "CustomObject[5].CustomObject[5].Contact.Field[Email Address]") ∧
  rewrite_rule "contacts" customobjects_job "Contact.Field[Email Address]" =
    "CustomObject[5].Contact.Field[Email Address]".
Proof. vm_compute. repeat split. Qed.

Lemma get_fields_pagination_witness :
  (∃ catalog s',
     get_fields (server contact_pages) check base ∅ 3 None None None
                (start contacts_job) = (Ret catalog, s') ∧
     sent s' = [base +:+ "/contacts/fields?limit=1000&offset=0";
                base +:+ "/contacts/fields?limit=1000&offset=1";
                base +:+ "/contacts/fields?limit=1000&offset=2"] ∧
     (λ l : loc, heap s' !! l) <$> catalog =
       [Some email; Some first_name; Some last_name]) ∧
  get_fields (server []) check base activity_table 0 None None None
             (mkBulk activities_job activity_dicts tt []) =
    (Ret [0; 1], mkBulk activities_job activity_dicts tt []).
Proof.
  assert (served (server contact_pages) check
                 (fields_url base (Some "contacts") None)
                 0 tt [[email]; [first_name]; [last_name]] tt) as Hserved.
  { eapply served_more; [reflexivity..|].
    eapply served_more; [reflexivity..|].
    eapply served_last; reflexivity. }
  split.
  - destruct (proj1 (get_fields_pagination (server contact_pages) check base ∅ 3
                       None None None (start contacts_job)
                       (Some "contacts") None None eq_refl)
                eq_refl eq_refl eq_refl _ _ Hserved
                (le_n 3))
      as (catalog & s' & Hrun & Hsent & Hitems & _ & _).
    exists catalog, s'. split; [exact Hrun|]. split; [exact Hsent|exact Hitems].
  - apply (proj2 (get_fields_pagination (server []) check base activity_table 0
                    None None None (mkBulk activities_job activity_dicts tt [])
                    (Some "activities") None (Some "EmailOpen") eq_refl)
             eq_refl "EmailOpen" [0; 1] eq_refl).
    reflexivity.
Defined.

Lemma add_fields_appends_every_match_witness :
  ∃ s',
    add_fields (server status_fields) check base ∅ 1 (Some ["Status"; "Email Address"])
               (start contacts_job) = (Ret None, s') ∧
    job_fields (job s') = [0; 2; 1].
Proof.
  eexists. split.
  - apply (add_fields_appends_every_match (server status_fields) check base ∅ 1
             ["Status"; "Email Address"] (start contacts_job)
             (get_fields (server status_fields) check base ∅ 1 None None None
                         (start contacts_job)).2
             [0; 1; 2]).
    + reflexivity.
    + intros l Hl. apply list_elem_of_In in Hl. cbn in Hl.
      destruct Hl as [<-|[<-|[<-|[]]]]; eexists; (split; [reflexivity|]);
        (split; [|intros _]); eexists; reflexivity.
    + intros n Hn. apply list_elem_of_In in Hn. cbn in Hn.
      destruct Hn as [<-|[<-|[]]]; apply (bool_decide_unpack _); vm_compute; exact I.
  - reflexivity.
Defined.

Lemma add_fields_unmatched_name_witness :
  ∃ s',
    add_fields (server contact_fields) check base ∅ 1
               (Some ["Email Address"; "nonexistent"; "First Name"])
               (start contacts_job) =
      (Raise (Exception "field not found: nonexistent"), s') ∧
    job s' = contacts_job.
Proof.
  destruct (add_fields_unmatched_name (server contact_fields) check base ∅ 1
              ["Email Address"] ["First Name"] "nonexistent"
              (start contacts_job)
              (mkBulk contacts_job [email; first_name] tt
                 [base +:+ "/contacts/fields?limit=1000&offset=0"])
              [0; 1]) as (Hrun & _ & Hjob).
  - reflexivity.
  - intros l Hl. apply list_elem_of_In in Hl. cbn in Hl.
    destruct Hl as [<-|[<-|[]]]; eexists; (split; [reflexivity|]);
      (split; [|intros _]); eexists; reflexivity.
  - intros n Hn. apply list_elem_of_In in Hn. cbn in Hn.
    destruct Hn as [<-|[]]. apply (bool_decide_unpack _). vm_compute. exact I.
  - apply (bool_decide_unpack _). vm_compute. exact I.
  - eexists. split; [exact Hrun|exact Hjob].
Defined.

Lemma filter_exists_list_filter_witness :
  filter_exists_list (server lists) check base (Some 1%Z) None
                     (start contacts_job) =
    (Ret tt,
     mkBulk (mkJob [" EXISTS('{{ContactList[1]}}') "] []
                   (Some "exports") (Some "contacts") None None [])
            [] tt [base +:+ "/contacts/lists/1"]) ∧
  filter_exists_list (server lists) check base None (Some "Test List 1")
                     (mkBulk (mkJob [" EXISTS('{{ContactList[7]}}') "] [0]
                                    (Some "exports") (Some "contacts") None None [])
                             [email] tt []) =
    (Ret tt,
     mkBulk (mkJob [" EXISTS('{{ContactList[7]}}') ";
                    " EXISTS('{{ContactList[1]}}') "] [0]
                   (Some "exports") (Some "contacts") None None [])
            [email] tt
            [base +:+ "/contacts/lists?q=" +:+ Py.dquote +:+
             "name=Test*List*1" +:+ Py.dquote]).
Proof.
  split.
  - apply (proj2 (filter_exists_list_filter (server lists) check base
                    (Some 1%Z) None (start contacts_job) _)).
    exists (list_url base contacts_job 1%Z), tt, GOOD_LIST, "{{ContactList[1]}}".
    split; [|split; reflexivity].
    apply (resolved_by_id (server lists) check base (start contacts_job) 1%Z
             None (mkResponse true 200 GOOD_LIST) tt); reflexivity.
  - apply (proj2 (filter_exists_list_filter (server lists) check base
                    None (Some "Test List 1") _ _)).
    eexists _, tt, GOOD_LIST, "{{ContactList[1]}}".
    split; [|split; [reflexivity|]].
    + apply (resolved_by_name (server lists) check base _
               "Test List 1" (page [GOOD_LIST] false) tt GOOD_LIST []);
        reflexivity.
    + reflexivity.
Defined.

Lemma filter_exists_list_by_name_as_by_id_witness :
  ∃ s' s2',
    filter_exists_list (server lists) check base None (Some "Test List 1")
                       (start contacts_job) = (Ret tt, s') ∧
    sent s' = [base +:+ "/contacts/lists?q=" +:+ Py.dquote +:+
               "name=Test*List*1" +:+ Py.dquote] ∧
    filter_exists_list (server lists) check base (Some 1%Z) None
                       (start contacts_job) = (Ret tt, s2') ∧
    last (job_filters (job s2')) = last (job_filters (job s')) ∧
    last (job_filters (job s')) = Some " EXISTS('{{ContactList[1]}}') ".
Proof.
  destruct (filter_exists_list_by_name_as_by_id (server lists) check base
              "Test List 1" (start contacts_job) (page [GOOD_LIST] false) tt
              GOOD_LIST [] "{{ContactList[1]}}" eq_refl eq_refl eq_refl eq_refl)
    as (s' & Hrun & Hsent & Hjob & Hid).
  destruct (Hid 1%Z (start contacts_job) (mkResponse true 200 GOOD_LIST) tt
              eq_refl eq_refl eq_refl) as (s2' & Hrun2 & Hlast).
  exists s', s2'. split; [exact Hrun|]. split; [exact Hsent|].
  split; [exact Hrun2|]. split; [exact Hlast|]. rewrite Hjob. reflexivity.
Defined.

(** C8 does not hold of the code: a search by name that returns no item
    does not raise [NotFoundError] (it raises no error of the
    specification's kinds at all), and a call with both arguments is
    accepted. *)
Lemma lookup_by_name_empty_not_NotFoundError :
  ¬ (∃ e s',
       filter_exists_list (server lists) check base None (Some "No Such List")
                          (start contacts_job) = (Raise e, s') ∧
       error_kind e = Some NotFoundError) ∧
  ¬ (∃ e s',
       add_leadscore_fields (server lists) check base None (Some "No Such Model")
                            (start contacts_job) = (Raise e, s') ∧
       error_kind e = Some NotFoundError) ∧
  filter_exists_list (server lists) check base (Some 1%Z) (Some "Test List 1")
                     (start contacts_job) =
    (Ret tt,
     mkBulk (job_append_filter contacts_job " EXISTS('{{ContactList[1]}}') ")
            [] tt [base +:+ "/contacts/lists/1"]).
Proof.
  split; [|split].
  - intros (e & s' & Hrun & Hkind). vm_compute in Hrun.
    injection Hrun as <- _. discriminate Hkind.
  - intros (e & s' & Hrun & Hkind). vm_compute in Hrun.
    injection Hrun as <- _. discriminate Hkind.
  - reflexivity.
Qed.

Lemma lookups_by_id_or_name_witness :
  (∃ s', filter_exists_list (server lists) check base None (Some "No Such List")
                            (start contacts_job) = (Raise IndexError, s') ∧
         job s' = contacts_job) ∧
  (∃ s', add_leadscore_fields (server lists) check base None (Some "No Such Model")
                              (start contacts_job) = (Raise IndexError, s') ∧
         job s' = contacts_job).
Proof.
  split.
  - destruct (lookups_by_id_or_name (server lists) check base "No Such List"
                (start contacts_job)) as (_ & _ & _ & _ & Hlist & _).
    exact (Hlist (page [] false) tt eq_refl eq_refl eq_refl).
  - destruct (lookups_by_id_or_name (server lists) check base "No Such Model"
                (start contacts_job)) as (_ & _ & _ & _ & _ & Hmodel & _).
    exact (Hmodel (page [] false) tt eq_refl eq_refl eq_refl).
Defined.

(** C9 does not hold of the code: after the call the fetched record of
    the field has the rewritten statement, the job refers to that very
    record, and the store has no more dicts than were fetched. *)
Lemma add_linked_fields_changes_fetched_record :
  let fetched := get_fields (server contact_fields) check base ∅ 1 (Some "contacts")
                   None None (start customobjects_job) in
  let after := add_linked_fields (server contact_fields) check base ∅ 1 "contacts"
                 ["Email Address"] (start customobjects_job) in
  fetched.1 = Ret [0; 1] ∧
  after.1 = Ret tt ∧
  job_fields (job after.2) = [0] ∧
  length (heap after.2) = length (heap fetched.2) ∧
  ¬ (∀ l d, l ∈ [0; 1] → heap fetched.2 !! l = Some d →
            ∃ d', heap after.2 !! l = Some d' ∧ d_statement d' = d_statement d).
Proof.
  do 4 (split; [reflexivity|]). intros Hkept.
  destruct (Hkept 0 email) as (d' & Hd' & Hst); [by left|reflexivity|].
  vm_compute in Hd'. injection Hd' as <-. discriminate Hst.
Qed.

Lemma add_linked_fields_rewrites_in_place_witness :
  ∃ s',
    add_linked_fields (server contact_fields) check base ∅ 1 "contacts"
                      ["Email Address"; "First Name"; "C_FirstName"]
                      (start customobjects_job) = (Ret tt, s') ∧
    job s' = mkJob [] [0; 1; 1] (Some "exports") (Some "customobjects")
                   (Some 5%Z) None [] ∧
    length (heap s') = 2 ∧
    heap s' !! 0 =
      Some (field "C_EmailAddress" "Email Address"
                  "CustomObject[5].Contact.Field[Email Address]").
Proof.
  destruct (add_linked_fields_rewrites_in_place (server contact_fields) check
              base ∅ 1 "contacts"
              ["Email Address"; "First Name"; "C_FirstName"]
              (start customobjects_job)
              (get_fields (server contact_fields) check base ∅ 1
                          (Some "contacts") None None
                          (start customobjects_job)).2
              [0; 1])
    as (s' & Hrun & Hjob & _ & _ & Hlen & _ & _ & _ & _ & Honce).
  - reflexivity.
  - intros l Hl. apply list_elem_of_In in Hl. cbn in Hl.
    destruct Hl as [<-|[<-|[]]]; eexists; (split; [reflexivity|]);
      (split; [split; [|intros _]|]); eexists; reflexivity.
  - intros n Hn. apply list_elem_of_In in Hn. cbn in Hn.
    destruct Hn as [<-|[<-|[<-|[]]]]; apply (bool_decide_unpack _);
      vm_compute; exact I.
  - exists s'. split; [exact Hrun|]. split; [exact Hjob|].
    split; [exact Hlen|].
    apply (Honce 0 [] [1; 1] email "Contact.Field[Email Address]");
      [reflexivity| | |reflexivity..];
      apply (bool_decide_unpack _); vm_compute; exact I.
Defined.

(** C10 does not hold of the code: with an empty list of names the call
    on an events job returns, and no error is raised. *)
Lemma add_system_fields_no_names_returns :
  ¬ (∀ field_input, ∃ s',
       add_system_fields [] [] field_input (start events_job) =
       (Raise (UnboundLocalError "fieldset"), s')) ∧
  add_system_fields [] [] (Some []) (start events_job) =
    (Ret None, start events_job).
Proof.
  split; [|reflexivity].
  intros Hall. destruct (Hall (Some [])) as [s' Hrun]. discriminate Hrun.
Qed.

Lemma add_system_fields_unbound_witness :
  add_system_fields [] [] None (start events_job) =
    (Raise (UnboundLocalError "fieldset"), start events_job) ∧
  add_system_fields [] [] (Some ["contactID"]) (start BLANK_JOB) =
    (Raise (UnboundLocalError "fieldset"), start BLANK_JOB) ∧
  add_system_fields [] [] (Some []) (start events_job) =
    (Ret None, start events_job).
Proof.
  split; [|split].
  - apply (proj1 (add_system_fields_unbound [] [] None (start events_job)
                    eq_refl eq_refl)). discriminate.
  - apply (proj1 (add_system_fields_unbound [] [] (Some ["contactID"])
                    (start BLANK_JOB) eq_refl eq_refl)). discriminate.
  - apply (proj1 (proj2 (add_system_fields_unbound [] [] (Some [])
                           (start events_job) eq_refl eq_refl))).
    reflexivity.
Defined.

End Run.

(** * Runs of the further properties *)

Module RunMore.

Import Example Cases.

Lemma setup_returns_iff_witness :
  _setup_ "exports" "events" (Some 7%Z) None (start BLANK_JOB) =
    (Ret tt, start events_job) ∧
  _setup_ "anything" "activities" None (Some "EmailOpen") (start BLANK_JOB) =
    (Ret tt, start (mkJob [] [] (Some "anything") (Some "activities") None
                          (Some "EmailOpen") [])).
Proof.
  split.
  - apply (proj2 (setup_returns_iff "exports" "events" (Some 7%Z) None
                    (start BLANK_JOB) (start events_job))).
    split; [|reflexivity].
    split; [apply (bool_decide_unpack _); vm_compute; exact I|].
    split; [intros _; by eexists|].
    intros H. exfalso. revert H. apply (bool_decide_unpack _). vm_compute. exact I.
  - apply (proj2 (setup_returns_iff "anything" "activities" None
                    (Some "EmailOpen") (start BLANK_JOB) _)).
    split; [|reflexivity].
    split; [apply (bool_decide_unpack _); vm_compute; exact I|].
    split; intros H; [|by eexists].
    exfalso. revert H. apply (bool_decide_unpack _). vm_compute. exact I.
Defined.

Lemma setup_failure_witness :
  ∃ e, _setup_ "exports" "customobjects" None None (start contacts_job) =
         (Raise e, start contacts_job) ∧
       e = Exception "obj_id required for 'customobjects'".
Proof.
  destruct (setup_failure "exports" "customobjects" None None
              (start contacts_job) (start contacts_job)
              (Raise (Exception "obj_id required for 'customobjects'")) eq_refl)
    as (_ & e & He & Hid & _); [discriminate|].
  injection He as Heq. exists e. split; [by rewrite <- Heq|]. apply Hid.
  apply (bool_decide_unpack _). vm_compute. exact I.
Defined.

Lemma get_fields_keeps_job_witness :
  let run := get_fields (server contact_pages) check base ∅ 2 None None None
               (start contacts_job) in
  run.1 = Timeout ∧ job run.2 = contacts_job ∧
  ∃ urls, sent run.2 = [] ++ urls.
Proof.
  cbv zeta.
  destruct (get_fields_keeps_job (server contact_pages) check base ∅ 2
              None None None (start contacts_job) _ _ eq_refl)
    as (Hjob & _ & Hsent).
  split; [reflexivity|]. split; [exact Hjob|exact Hsent].
Defined.

Lemma get_fields_refused_page_witness :
  ∃ s',
    get_fields (server refused_pages) check base ∅ 5 None None None
               (start contacts_job) = (Raise (ElqError 503), s') ∧
    job s' = contacts_job ∧
    sent s' = [base +:+ "/contacts/fields?limit=1000&offset=0";
               base +:+ "/contacts/fields?limit=1000&offset=1"].
Proof.
  assert (refused (server refused_pages) check
                  (fields_url base (Some "contacts") None) 0 tt 1
                  (ElqError 503) tt) as Href.
  { eapply refused_later; [reflexivity..|].
    eapply refused_now; reflexivity. }
  destruct (get_fields_refused_page (server refused_pages) check base ∅ 5
              None None None (start contacts_job) (Some "contacts") None None
              1 (ElqError 503) tt eq_refl eq_refl eq_refl eq_refl Href)
    as (s' & Hrun & Hjob & _ & Hsent); [lia|].
  exists s'. split; [exact Hrun|]. split; [exact Hjob|exact Hsent].
Defined.

Lemma get_fields_never_returns_witness :
  (get_fields endless check base ∅ 50 None None None (start contacts_job)).1 =
  Timeout.
Proof.
  apply (get_fields_never_returns endless check base ∅ None None None
           (start contacts_job) (Some "contacts") None None
           eq_refl eq_refl eq_refl eq_refl).
  intros url w. split; [reflexivity|]. split; [by eexists|reflexivity].
Defined.

Lemma get_fields_unknown_activity_witness :
  get_fields (server []) check base activity_table 1 (Some "activities") None
             (Some "Bounceback") (mkBulk contacts_job activity_dicts tt []) =
    (Raise (KeyError (Some "Bounceback")),
     mkBulk contacts_job activity_dicts tt []) ∧
  get_fields (server []) check base activity_table 1 (Some "activities") None
             None (mkBulk activities_job activity_dicts tt []) =
    (Raise (KeyError None), mkBulk activities_job activity_dicts tt []).
Proof.
  split.
  - apply (get_fields_unknown_activity (server []) check base activity_table 1
             (Some "activities") None (Some "Bounceback")
             (mkBulk contacts_job activity_dicts tt [])
             (Some "activities") None (Some "Bounceback") eq_refl eq_refl).
    reflexivity.
  - apply (get_fields_unknown_activity (server []) check base activity_table 1
             (Some "activities") None None
             (mkBulk activities_job activity_dicts tt [])
             (Some "activities") None None eq_refl eq_refl).
    reflexivity.
Defined.

Lemma get_fields_missing_key_witness :
  (∃ s', get_fields (server no_items) check base ∅ 1 None None None
                    (start contacts_job) =
           (Raise (KeyError (Some "items")), s') ∧ job s' = contacts_job) ∧
  (∃ s', get_fields (server no_hasMore) check base ∅ 1 None None None
                    (start contacts_job) =
           (Raise (KeyError (Some "hasMore")), s') ∧ job s' = contacts_job).
Proof.
  split.
  - apply (proj1 (get_fields_missing_key (server no_items) check base ∅ 0
                    None None None (start contacts_job)
                    (Some "contacts") None None _ tt
                    eq_refl eq_refl eq_refl eq_refl eq_refl eq_refl)).
    reflexivity.
  - apply (proj2 (get_fields_missing_key (server no_hasMore) check base ∅ 0
                    None None None (start contacts_job)
                    (Some "contacts") None None _ tt
                    eq_refl eq_refl eq_refl eq_refl eq_refl eq_refl)).
    + by eexists.
    + reflexivity.
Defined.

Lemma add_fields_all_or_none_witness :
  (add_fields (server contact_fields) check base ∅ 1 None
              (start contacts_job)).1 = Ret (Some true) ∧
  job_fields (job (add_fields (server contact_fields) check base ∅ 1 None
                              (start contacts_job)).2) = [0; 1] ∧
  ∃ s', add_fields (server contact_fields) check base ∅ 1 (Some [])
                   (start contacts_job) = (Ret None, s') ∧
        job s' = contacts_job ∧
        sent s' = [base +:+ "/contacts/fields?limit=1000&offset=0"].
Proof.
  destruct (add_fields_all_or_none (server contact_fields) check base ∅ 1
              (start contacts_job)
              (get_fields (server contact_fields) check base ∅ 1 None None None
                          (start contacts_job)).2
              [0; 1] eq_refl) as (Hall & s' & Hnone & Hjob & _ & Hsent).
  split; [by rewrite Hall|]. split; [by rewrite Hall|].
  exists s'. split; [exact Hnone|]. split; [exact Hjob|exact Hsent].
Defined.

Lemma add_fields_keeps_witness :
  let run := add_fields (server contact_fields) check base ∅ 1
               (Some ["Email Address"; "nonexistent"]) (start contacts_job) in
  run.1 = Raise (Exception "field not found: nonexistent") ∧
  job run.2 = contacts_job.
Proof.
  cbv zeta.
  destruct (add_fields_keeps (server contact_fields) check base ∅ 1
              (Some ["Email Address"; "nonexistent"]) (start contacts_job)
              _ _ eq_refl) as (_ & _ & _ & Hfail).
  split; [reflexivity|]. apply Hfail. discriminate.
Defined.

(** A contacts job whose store holds the system fields of contacts. *)
Lemma add_system_fields_resolves_witness :
  add_system_fields [0; 1] [] None (mkBulk contacts_job system_dicts tt []) =
    (Ret (Some true),
     mkBulk (mkJob [] [0; 1] (Some "exports") (Some "contacts") None None [])
            system_dicts tt []) ∧
  add_system_fields [0; 1] [] (Some ["createdAt"; "contactID"])
                    (mkBulk contacts_job system_dicts tt []) =
    (Ret None,
     mkBulk (mkJob [] [1; 0] (Some "exports") (Some "contacts") None None [])
            system_dicts tt []).
Proof.
  destruct (add_system_fields_resolves (server []) base [0; 1] []
              ["createdAt"; "contactID"]
              [0; 1] (mkBulk contacts_job system_dicts tt [])
              (or_introl (conj eq_refl eq_refl))) as (Hall & Hnames).
  split; [exact Hall|]. apply Hnames.
  - intros l Hl. apply list_elem_of_In in Hl. cbn in Hl.
    destruct Hl as [<-|[<-|[]]]; eexists; (split; [reflexivity|]); by eexists.
  - intros n Hn. apply list_elem_of_In in Hn. cbn in Hn.
    destruct Hn as [<-|[<-|[]]]; apply (bool_decide_unpack _); vm_compute; exact I.
Defined.

Lemma add_system_fields_unmatched_witness :
  add_system_fields [] [0; 1] (Some ["contactID"; "C_EmailAddress"; "createdAt"])
                    (mkBulk (mkJob [] [] (Some "exports") (Some "accounts")
                                   None None []) system_dicts tt []) =
    (Raise (Exception "field not found: C_EmailAddress"),
     mkBulk (mkJob [] [] (Some "exports") (Some "accounts") None None [])
            system_dicts tt []).
Proof.
  apply (add_system_fields_unmatched (server []) base [] [0; 1]
           ["contactID"] ["createdAt"]
           "C_EmailAddress" [0; 1]
           (mkBulk (mkJob [] [] (Some "exports") (Some "accounts") None None [])
                   system_dicts tt [])
           (or_intror (conj eq_refl eq_refl))).
  - intros l Hl. apply list_elem_of_In in Hl. cbn in Hl.
    destruct Hl as [<-|[<-|[]]]; eexists; (split; [reflexivity|]); by eexists.
  - intros n Hn. apply list_elem_of_In in Hn. cbn in Hn.
    destruct Hn as [<-|[]]. apply (bool_decide_unpack _). vm_compute. exact I.
  - apply (bool_decide_unpack _). vm_compute. exact I.
Defined.

Lemma add_system_fields_keeps_witness :
  let run := add_system_fields [0; 1] [] (Some ["nope"])
               (mkBulk contacts_job system_dicts tt []) in
  run.2 = mkBulk contacts_job system_dicts tt [].
Proof.
  cbv zeta.
  destruct (add_system_fields_keeps [0; 1] [] (Some ["nope"])
              (mkBulk contacts_job system_dicts tt []) _ _ eq_refl)
    as (_ & _ & _ & _ & _ & Hfail).
  apply Hfail. discriminate.
Defined.

Lemma add_linked_fields_unmatched_witness :
  ∃ s1,
    add_linked_fields (server contact_fields) check base ∅ 1 "contacts"
                      ["C_FirstName"; "Company Name"] (start customobjects_job) =
      (Raise (Exception "field not found: Company Name"), s1) ∧
    job s1 = customobjects_job.
Proof.
  destruct (add_linked_fields_unmatched (server contact_fields) check base ∅ 1
              "contacts" ["C_FirstName"] [] "Company Name"
              (start customobjects_job)
              (get_fields (server contact_fields) check base ∅ 1
                          (Some "contacts") None None
                          (start customobjects_job)).2
              [0; 1] eq_refl) as (Hrun & _ & Hjob).
  - intros l Hl. apply list_elem_of_In in Hl. cbn in Hl.
    destruct Hl as [<-|[<-|[]]]; eexists; (split; [reflexivity|]);
      (split; [|intros _]); eexists; reflexivity.
  - intros n Hn. apply list_elem_of_In in Hn. cbn in Hn.
    destruct Hn as [<-|[]]. apply (bool_decide_unpack _). vm_compute. exact I.
  - apply (bool_decide_unpack _). vm_compute. exact I.
  - eexists. split; [exact Hrun|exact Hjob].
Defined.

Lemma add_linked_fields_keeps_witness :
  let s := mkBulk (job_extend_fields contacts_job [0; 1]) system_dicts tt [] in
  let run := add_linked_fields (server account_fields) check base ∅ 1 "accounts"
               ["Company Name"] s in
  run.1 = Ret tt ∧ job_fields (job run.2) = [0; 1; 2] ∧
  store_kept system_dicts (heap run.2) ∧
  d_statement <$> heap run.2 !! 2 =
    Some (Some "{{Contact.Account.Field(M_CompanyName)}}").
Proof.
  cbv zeta.
  destruct (add_linked_fields_keeps (server account_fields) check base ∅ 1
              "accounts" ["Company Name"]
              (mkBulk (job_extend_fields contacts_job [0; 1]) system_dicts tt [])
              _ _ eq_refl) as (_ & _ & Hkept & _).
  split; [reflexivity|]. split; [reflexivity|]. split; [exact Hkept|reflexivity].
Defined.

Lemma add_linked_fields_no_parent_id_witness :
  ∃ urls,
    sent (add_linked_fields (server []) check base ∅ 1 "events"
                            ["Event Name"] (start customobjects_job)).2 =
    (base +:+ "/events/None/fields?limit=1000&offset=0") :: urls.
Proof.
  eapply (add_linked_fields_no_parent_id (server []) check base ∅ 0 "events"
            ["Event Name"] (start customobjects_job)).
  - apply (bool_decide_unpack _). vm_compute. exact I.
  - reflexivity.
  - reflexivity.
Defined.

Lemma rewrite_statement_token_absent_witness :
  let s := mkBulk customobjects_job
             [field "Name1" "Name" "{{CustomObject[5].Field[12]}}"] tt [] in
  rewrite_statement "contacts" 0 s = (Ret tt, s).
Proof.
  cbv zeta.
  apply (rewrite_statement_token_absent "contacts" 0
           (field "Name1" "Name" "{{CustomObject[5].Field[12]}}")
           "{{CustomObject[5].Field[12]}}").
  - reflexivity.
  - reflexivity.
  - intros _. reflexivity.
  - discriminate.
Defined.

Lemma add_leadscore_fields_appends_witness :
  add_leadscore_fields (server models) check base (Some 1%Z) None
                       (start events_job) =
    (Ret tt,
     mkBulk (mkJob [] [0; 1] (Some "exports") (Some "events") (Some 7%Z) None [])
            [rating; profile] tt
            [base +:+ "/contacts/scoring/models/1"]) ∧
  add_leadscore_fields (server models) check base None (Some "Lead Score")
                       (mkBulk (mkJob [] [0] (Some "exports") (Some "contacts")
                                      None None [])
                               [email] tt []) =
    (Ret tt,
     mkBulk (mkJob [] [0; 1; 2] (Some "exports") (Some "contacts") None None [])
            [email; rating; profile] tt
            [base +:+ "/contacts/scoring/models?q=" +:+ Py.dquote +:+
             "name=Lead*Score" +:+ Py.dquote]).
Proof.
  split.
  - apply (proj2 (add_leadscore_fields_appends (server models) check base
                    (Some 1%Z) None (start events_job) _)).
    exists (model_url base 1%Z), tt, model, [rating; profile].
    split; [|split; reflexivity].
    apply (model_by_id (server models) check base (start events_job) 1%Z None
             (mkResponse true 200 model) tt); reflexivity.
  - apply (proj2 (add_leadscore_fields_appends (server models) check base
                    None (Some "Lead Score") _ _)).
    exists (model_search_url base "Lead Score"), tt, model, [rating; profile].
    split; [|split; reflexivity].
    apply (model_by_name (server models) check base _
             "Lead Score" (page [model; empty_dict] false) tt model [empty_dict]);
      reflexivity.
Defined.

Lemma add_leadscore_fields_keeps_witness :
  let run := add_leadscore_fields (server models) check base (Some 2%Z) None
               (start contacts_job) in
  run.1 = Raise (ElqError 404) ∧ job run.2 = contacts_job.
Proof.
  cbv zeta.
  destruct (add_leadscore_fields_keeps (server models) check base (Some 2%Z)
              None (start contacts_job) _ _ eq_refl) as (_ & _ & _ & _ & Hfail).
  split; [reflexivity|]. apply Hfail. discriminate.
Defined.

Lemma filter_exists_list_keeps_witness :
  let run := filter_exists_list (server lists) check base (Some 1%Z) None
               (start contacts_job) in
  run.1 = Ret tt ∧ heap run.2 = [] ∧
  ∃ f, job_filters (job run.2) = [] ++ [f].
Proof.
  cbv zeta.
  destruct (filter_exists_list_keeps (server lists) check base (Some 1%Z) None
              (start contacts_job) _ _ eq_refl) as (Hheap & _ & _ & _ & _ & Hret).
  split; [reflexivity|]. split; [exact Hheap|]. apply Hret. reflexivity.
Defined.

Lemma filter_exists_list_refused_witness :
  (∃ s', filter_exists_list (server lists) check base (Some 9%Z)
                            (Some "Test List 1") (start contacts_job) =
           (Raise (ElqError 404), s') ∧ job s' = contacts_job) ∧
  (∃ s', filter_exists_list (server lists) check base None
                            (Some "Other List") (start contacts_job) =
           (Raise (ElqError 404), s') ∧ job s' = contacts_job).
Proof.
  split.
  - apply (filter_exists_list_refused (server lists) check base (Some 9%Z)
             "Test List 1" (start contacts_job) not_found tt (ElqError 404));
      reflexivity.
  - apply (filter_exists_list_refused (server lists) check base None
             "Other List" (start contacts_job) not_found tt (ElqError 404));
      reflexivity.
Defined.

Lemma exports_unknown_activity_type_witness :
  ∃ s1,
    exports "activities" None (Some "Bounceback")
            (mkBulk BLANK_JOB activity_dicts tt []) = (Ret tt, s1) ∧
    add_fields (server []) check base activity_table 1 None s1 =
      (Raise (KeyError (Some "Bounceback")), s1).
Proof.
  destruct (exports_unknown_activity_type (server []) check base activity_table
              "Bounceback" None (mkBulk BLANK_JOB activity_dicts tt []) eq_refl)
    as (s1 & Hset & _ & Hadd).
  exists s1. split; [exact Hset|apply Hadd].
Defined.

Lemma blank_job_requests_None_witness :
  ∃ urls,
    sent (add_fields (server contact_fields) check base ∅ 1 None
                     (start BLANK_JOB)).2 =
    (base +:+ "/None/fields?limit=1000&offset=0") :: urls.
Proof.
  destruct (blank_job_requests_None (server contact_fields) check base ∅ 0 None
              1%Z (start contacts_job) eq_refl) as (s0 & Hreset & _ & Hadd & _).
  injection Hreset as <-.
  apply (Hadd _ _ eq_refl).
Defined.

End RunMore.
